(** * The analysis pipeline of emotion_sns_demo.py

    A shallow embedding of the rate limiter, the emotion scorer and the
    background worker of [src/emotion_sns_demo.py], with the properties the
    specification states about them.

    Conventions of the embedding:
    - a [datetime] is the number of microseconds since an arbitrary epoch
      (Python's resolution), a [timedelta] a signed number of microseconds;
    - a Python [str] is a Rocq [string] holding its UTF-8 encoding;
    - a Python [float] is a binary64 [float];
    - process-wide state (the queue and the log of [st.session_state], the
      SQLite table, the limiter the worker uses) is one [World] record that
      every operation passes along; the lock of the limiter has no
      counterpart because every operation here runs to completion on its
      own. *)

From Stdlib Require Import ZArith List String Ascii Lia Floats.
From stdpp Require Import gmap strings list pretty sorting.
Import ListNotations.

Local Open Scope string_scope.
Local Open Scope Z_scope.

(** ** datetime and timedelta *)

Abbreviation datetime := Z (only parsing).
Abbreviation timedelta := Z (only parsing).

Definition us_per_second : Z := 1000000.
Definition seconds_per_day : Z := 86400.
Definition us_per_day : Z := seconds_per_day * us_per_second.

(** [timedelta.seconds]: Python normalises a timedelta to
    [days, seconds, microseconds] with [0 <= seconds < 86400] and
    [0 <= microseconds < 1000000]; [.seconds] is that middle field, not the
    whole duration. *)
Definition td_seconds (d : timedelta) : Z :=
  (d mod us_per_day) / us_per_second.

(** [timedelta.days], the field [.seconds] leaves out. *)
Definition td_days (d : timedelta) : Z := d / us_per_day.

(** [timedelta.total_seconds()], rounded down to whole seconds. *)
Definition td_total_seconds_floor (d : timedelta) : Z := d / us_per_second.

(** ** class RateLimiter *)

Record RateLimiter := mkRateLimiter {
  max_requests : Z;
  time_window : Z;
  requests : list datetime
}.

(** [RateLimiter()] with the defaults of [__init__]. *)
Definition RateLimiter_init (max_requests time_window : Z) : RateLimiter :=
  mkRateLimiter max_requests time_window [].

Definition RateLimiter_default : RateLimiter := RateLimiter_init 15 60.

Definition set_requests (rl : RateLimiter) (l : list datetime) : RateLimiter :=
  mkRateLimiter (max_requests rl) (time_window rl) l.

(** The list comprehension of [can_request]. *)
Definition prune (now : datetime) (rl : RateLimiter) : list datetime :=
  List.filter (fun req_time => td_seconds (now - req_time) <? time_window rl)
              (requests rl).

(** [can_request]; [now] is what [datetime.now()] returns in the call. *)
Definition can_request (now : datetime) (rl : RateLimiter) : bool * RateLimiter :=
  let kept := prune now rl in
  if Z.of_nat (length kept) <? max_requests rl
  then (true, set_requests rl (kept ++ [now])%list)
  else (false, set_requests rl kept).

(** [min] of a non-empty list of datetimes. *)
Definition list_min (d : datetime) (l : list datetime) : datetime :=
  fold_left Z.min l d.

(** [wait_time]. *)
Definition wait_time (now : datetime) (rl : RateLimiter) : Z :=
  match requests rl with
  | [] => 0
  | r :: rs =>
      let oldest := list_min r rs in
      Z.max 0 (time_window rl - td_seconds (now - oldest))
  end.

(** *** What the specification calls the window *)

(** A recorded timestamp lies within the trailing [w] seconds of [now]. *)
Definition in_window (w : Z) (now t : datetime) : Prop :=
  t <= now /\ now - t < w * us_per_second.

Definition in_windowb (w : Z) (now t : datetime) : bool :=
  (t <=? now) && (now - t <? w * us_per_second).

(** How many recorded admissions lie within the trailing window. *)
Definition admitted_in_window (now : datetime) (rl : RateLimiter) : Z :=
  Z.of_nat (length (List.filter (in_windowb (time_window rl) now) (requests rl))).

(** Every timestamp is at most a day old and none lies in the future. *)
Definition fresh (now : datetime) (rl : RateLimiter) : Prop :=
  Forall (fun t => 0 <= now - t < us_per_day) (requests rl).

Definition freshb (now : datetime) (rl : RateLimiter) : bool :=
  forallb (fun t => (0 <=? now - t) && (now - t <? us_per_day)) (requests rl).

(** A series of calls of [can_request], one per reading of the clock: the
    readings that were admitted. *)
Fixpoint admissions (times : list datetime) (rl : RateLimiter) : list datetime :=
  match times with
  | [] => []
  | t :: ts =>
      let (ok, rl') := can_request t rl in
      ((if ok then [t] else []) ++ admissions ts rl')%list
  end.

(** The limiter such a series of calls leaves. *)
Fixpoint after_calls (times : list datetime) (rl : RateLimiter) : RateLimiter :=
  match times with
  | [] => rl
  | t :: ts => after_calls ts (snd (can_request t rl))
  end.

(** Fifteen calls, one per second from the epoch on. *)
Definition burst : list datetime :=
  List.map (fun i => Z.of_nat i * us_per_second) (seq 0 15).

(** The oldest recorded timestamp, the [min] of [wait_time]. *)
Definition oldest_request (rl : RateLimiter) : option datetime :=
  match requests rl with
  | [] => None
  | r :: rs => Some (list_min r rs)
  end.

(** A duration in microseconds as whole seconds, rounded up. *)
Definition seconds_up (d : timedelta) : Z := - ((- d) / us_per_second).

(** The time left until a timestamp [t] is [w] seconds old. *)
Definition remaining (w : Z) (now t : datetime) : timedelta :=
  t + w * us_per_second - now.

(** ** Python values, exceptions and results *)

#[warnings="-register-all"]
Inductive pyval :=
| PyNone
| PyBool (b : bool)
| PyInt (z : Z)
| PyFloat (f : float)
| PyStr (s : string)
| PyList (l : list pyval).

(** An instance of a subclass of [Exception]: its class and what [str(e)]
    gives.  [BaseException]s outside [Exception] (KeyboardInterrupt,
    SystemExit) are signals of the interpreter, not errors of a call, and are
    not modelled. *)
Record exception := Exception { exc_class : string; exc_str : string }.

Inductive result (A : Type) :=
| Return (a : A)
| Raise (e : exception).
Arguments Return {A} a.
Arguments Raise {A} e.

Definition dq : string := String (ascii_of_nat 34) EmptyString.
Definition sq : string := "'".

Definition KeyError (key : string) : exception :=
  Exception "KeyError" (sq +:+ key +:+ sq).
Definition TypeError (msg : string) : exception := Exception "TypeError" msg.
Definition AttributeError (msg : string) : exception :=
  Exception "AttributeError" msg.
Definition queue_Empty : exception := Exception "queue.Empty" "".
Definition JSONDecodeError (msg : string) : exception :=
  Exception "json.JSONDecodeError" msg.
Definition sqlite3_ProgrammingError (msg : string) : exception :=
  Exception "sqlite3.ProgrammingError" msg.
Definition OverflowError (msg : string) : exception :=
  Exception "OverflowError" msg.

(** [d[key]] on a dict. *)
Definition getitem (d : gmap string pyval) (key : string) : result pyval :=
  match d !! key with
  | Some v => Return v
  | None => Raise (KeyError key)
  end.

(** ** Strings *)

(** A byte that continues a UTF-8 sequence. *)
Definition is_continuation (c : ascii) : bool :=
  let n := nat_of_ascii c in (128 <=? n)%nat && (n <? 192)%nat.

(** [s[:n]]: the first [n] code points of [s]. *)
Fixpoint py_take (n : nat) (s : string) : string :=
  match s with
  | EmptyString => EmptyString
  | String c r =>
      if is_continuation c then String c (py_take n r)
      else match n with
           | O => EmptyString
           | S n' => String c (py_take n' r)
           end
  end.

(** The longest prefix free of a closing brace, and what follows it. *)
Fixpoint span_not_close (s : string) : string * string :=
  match s with
  | EmptyString => (EmptyString, EmptyString)
  | String c r =>
      if Ascii.eqb c "}"%char then (EmptyString, s)
      else let (a, b) := span_not_close r in (String c a, b)
  end.

(** No character of [s] is a closing brace. *)
Fixpoint no_close (s : string) : bool :=
  match s with
  | EmptyString => true
  | String c r => negb (Ascii.eqb c "}"%char) && no_close r
  end.

(** The pattern [\{[^}]+\}] tried right after an opening brace: [rest] is
    the text behind that brace. *)
Definition match_at (rest : string) : option string :=
  match span_not_close rest with
  | (String c body, String _ _) => Some ("{" +:+ String c body +:+ "}")
  | _ => None
  end.

(** [re.search(r'\{[^}]+\}', s)], giving [json_match.group()] of the
    leftmost match. *)
Fixpoint re_search (s : string) : option string :=
  match s with
  | EmptyString => None
  | String c r =>
      if Ascii.eqb c "{"%char
      then match match_at r with
           | Some m => Some m
           | None => re_search r
           end
      else re_search r
  end.

(** ** A JSON decoder for the examples

    [json.loads] is a library function: the scorer and the worker below take
    the decoder as a parameter, and every general theorem holds for every
    decoder.  The closed examples need one to run, and use
    [json_loads_flat]: it decodes the flat objects the prompt asks for,
    whose members are [key: value] with a string key and a value that is a
    string, an integer, [true], [false] or [null] (strings without
    backslash escapes), and raises on every other text.  On texts that are
    not JSON it agrees with [json.loads]; JSON outside this fragment
    (fractions, exponents, arrays, escapes) it refuses, and no example
    uses such a text.  The wording of the error message is not that of the
    library. *)

Definition is_ws (c : ascii) : bool :=
  let n := nat_of_ascii c in
  ((n =? 32) || (n =? 9) || (n =? 10) || (n =? 13))%nat.

Definition is_digit (c : ascii) : bool :=
  let n := nat_of_ascii c in (48 <=? n)%nat && (n <=? 57)%nat.

Fixpoint skip_ws (s : string) : string :=
  match s with
  | String c r => if is_ws c then skip_ws r else s
  | EmptyString => EmptyString
  end.

(** The characters of a string literal up to its closing quote, and the
    text behind that quote. *)
Fixpoint string_body (s : string) : option (string * string) :=
  match s with
  | EmptyString => None
  | String c r =>
      if Ascii.eqb c (ascii_of_nat 34) then Some (EmptyString, r)
      else if Ascii.eqb c "\"%char then None
      else if (nat_of_ascii c <? 32)%nat then None
      else match string_body r with
           | Some (body, rest) => Some (String c body, rest)
           | None => None
           end
  end.

Fixpoint digits (s : string) (acc : Z) (seen : bool) : Z * bool * string :=
  match s with
  | String c r =>
      if is_digit c
      then digits r (10 * acc + (Z.of_nat (nat_of_ascii c) - 48)) true
      else (acc, seen, s)
  | EmptyString => (acc, seen, EmptyString)
  end.

Definition starts_fraction (s : string) : bool :=
  match s with
  | String c _ =>
      Ascii.eqb c "."%char || Ascii.eqb c "e"%char || Ascii.eqb c "E"%char
  | EmptyString => false
  end.

(** An integer literal: an optional sign, then [0] or a run of digits that
    does not start with [0]. *)
Definition integer (s : string) : option (Z * string) :=
  let (neg, s1) := match s with
                   | String c r => if Ascii.eqb c "-"%char then (true, r) else (false, s)
                   | EmptyString => (false, s)
                   end in
  match s1 with
  | String c r =>
      if Ascii.eqb c "0"%char
      then if starts_fraction r then None else Some (0, r)
      else match digits s1 0 false with
           | (n, true, rest) =>
               if starts_fraction rest then None
               else Some (if neg then - n else n, rest)
           | _ => None
           end
  | EmptyString => None
  end.

Definition keyword (k : string) (v : pyval) (s : string) : option (pyval * string) :=
  if String.prefix k s
  then Some (v, String.substring (String.length k) (String.length s - String.length k) s)
  else None.

Definition flat_value (s : string) : option (pyval * string) :=
  match s with
  | String c r =>
      if Ascii.eqb c (ascii_of_nat 34)
      then match string_body r with
           | Some (body, rest) => Some (PyStr body, rest)
           | None => None
           end
      else if Ascii.eqb c "t"%char then keyword "true" (PyBool true) s
      else if Ascii.eqb c "f"%char then keyword "false" (PyBool false) s
      else if Ascii.eqb c "n"%char then keyword "null" PyNone s
      else match integer s with
           | Some (n, rest) => Some (PyInt n, rest)
           | None => None
           end
  | EmptyString => None
  end.

(** The members of an object from the first key on, up to and including
    the closing brace; a key given twice keeps its last value. *)
Fixpoint flat_members (fuel : nat) (s : string) (acc : gmap string pyval)
  : option (gmap string pyval * string) :=
  match fuel with
  | O => None
  | S fuel' =>
      match s with
      | String c r =>
          if Ascii.eqb c (ascii_of_nat 34)
          then match string_body r with
               | Some (key, r1) =>
                   match skip_ws r1 with
                   | String c2 r2 =>
                       if Ascii.eqb c2 ":"%char
                       then match flat_value (skip_ws r2) with
                            | Some (v, r3) =>
                                match skip_ws r3 with
                                | String c4 r4 =>
                                    if Ascii.eqb c4 ","%char
                                    then flat_members fuel' (skip_ws r4) (<[key := v]> acc)
                                    else if Ascii.eqb c4 "}"%char
                                    then Some (<[key := v]> acc, r4)
                                    else None
                                | EmptyString => None
                                end
                            | None => None
                            end
                       else None
                   | EmptyString => None
                   end
               | None => None
               end
          else None
      | EmptyString => None
      end
  end.

Definition json_loads_flat (s : string) : result (gmap string pyval) :=
  let bad := Raise (JSONDecodeError "not a flat JSON object") in
  match skip_ws s with
  | String c r =>
      if Ascii.eqb c "{"%char
      then match skip_ws r with
           | String c1 r1 =>
               if Ascii.eqb c1 "}"%char
               then match skip_ws r1 with
                    | EmptyString => Return ∅
                    | _ => bad
                    end
               else match flat_members (String.length s) (String c1 r1) ∅ with
                    | Some (d, rest) =>
                        match skip_ws rest with
                        | EmptyString => Return d
                        | _ => bad
                        end
                    | None => bad
                    end
           | EmptyString => bad
           end
      else bad
  | EmptyString => bad
  end.

(** Turns each apostrophe of a literal into a double quote, to spell JSON
    texts readably. *)
Fixpoint json_text (s : string) : string :=
  match s with
  | EmptyString => EmptyString
  | String c r =>
      String (if Ascii.eqb c "'"%char then ascii_of_nat 34 else c) (json_text r)
  end.

(** ** The service client *)

(** [response.text] is a [str], or [None] when the reply has no text part. *)
Record Response := mkResponse { response_text : option string }.

(** [client.models.generate_content(model=..., contents=...)]: what the
    call returns or raises.  One analysis makes at most one call, so a
    function of the arguments describes every behaviour of the service in
    that call. *)
Record Client := mkClient {
  generate_content : string -> list string -> result Response
}.

(** ** The posts table *)

Inductive sqlval :=
| SqlNull
| SqlInteger (z : Z)
| SqlReal (f : float)
| SqlText (s : string).

(** A row of [posts] without its key.  A score cell holds the value the
    statement bound; the affinity SQLite applies to a REAL column when it
    stores the cell is below this model. *)
Record Post := mkPost {
  content : string;
  timestamp : datetime;
  happiness : sqlval;
  excitement : sqlval;
  satisfaction : sqlval;
  concern : sqlval;
  processed : bool;
  error_type : option string;
  error_message : option string
}.

(** The table, keyed by [id], and the largest [id] AUTOINCREMENT has given
    out. *)
Record Database := mkDatabase {
  posts : gmap Z Post;
  last_rowid : Z
}.

(** [INSERT INTO posts (content, timestamp) VALUES (?, ?)]: the other
    columns take their defaults. *)
Definition new_post (content : string) (timestamp : datetime) : Post :=
  mkPost content timestamp (SqlReal 0) (SqlReal 0) (SqlReal 0) (SqlReal 0)
         false None None.

Definition insert_post (content : string) (timestamp : datetime) (d : Database)
  : Z * Database :=
  let id := last_rowid d + 1 in
  (id, mkDatabase (<[id := new_post content timestamp]> (posts d)) id).

(** [SELECT content FROM posts WHERE id = ? AND processed = FALSE] followed
    by [fetchone()]. *)
Definition select_unprocessed_content (id : Z) (d : Database) : option string :=
  match posts d !! id with
  | Some p => if processed p then None else Some (content p)
  | None => None
  end.

(** The row the UPDATE of the worker leaves. *)
Definition analysed (p : Post) (h e s c : sqlval) (et em : option string) : Post :=
  mkPost (content p) (timestamp p) h e s c true et em.

(** [UPDATE posts SET ... WHERE id = ?]. *)
Definition update_post (id : Z) (h e s c : sqlval) (et em : option string)
  (d : Database) : Database :=
  mkDatabase (alter (fun p => analysed p h e s c et em) id (posts d)) (last_rowid d).

(** How sqlite3 binds a Python value to a statement parameter. *)
Definition bind_param (v : pyval) : result sqlval :=
  match v with
  | PyNone => Return SqlNull
  | PyBool b => Return (SqlInteger (if b then 1 else 0))
  | PyInt z =>
      if (- 2 ^ 63 <=? z) && (z <? 2 ^ 63) then Return (SqlInteger z)
      else Raise (OverflowError "Python int too large to convert to SQLite INTEGER")
  | PyFloat f => Return (SqlReal f)
  | PyStr s => Return (SqlText s)
  | PyList _ =>
      Raise (sqlite3_ProgrammingError "Error binding parameter: type 'list' is not supported")
  end.

(** [SELECT id, content FROM posts WHERE processed = FALSE ORDER BY id DESC
    LIMIT 5], the ids only. *)
Definition select_unprocessed_ids (d : Database) : list Z :=
  take 5 (merge_sort Z.ge
            (List.map fst (List.filter (fun kp => negb (processed (snd kp)))
                                       (map_to_list (posts d))))).

(** ** The process state *)

(** What the process does to the outside, in order: calls of the service
    and pauses (in milliseconds). *)
Inductive effect :=
| ApiCall (model : string) (contents : list string)
| Sleep (ms : Z).

Record World := mkWorld {
  emotion_queue : list Z;
  conn : Database;
  rate_limiter : RateLimiter;
  debug_status : option (list string);
  effects : list effect
}.

Definition set_queue (q : list Z) (w : World) : World :=
  mkWorld q (conn w) (rate_limiter w) (debug_status w) (effects w).
Definition set_conn (d : Database) (w : World) : World :=
  mkWorld (emotion_queue w) d (rate_limiter w) (debug_status w) (effects w).
Definition set_rate_limiter (rl : RateLimiter) (w : World) : World :=
  mkWorld (emotion_queue w) (conn w) rl (debug_status w) (effects w).
Definition set_debug_status (l : option (list string)) (w : World) : World :=
  mkWorld (emotion_queue w) (conn w) (rate_limiter w) l (effects w).
Definition add_effect (e : effect) (w : World) : World :=
  mkWorld (emotion_queue w) (conn w) (rate_limiter w) (debug_status w)
          (effects w ++ [e])%list.

(** A computation that reads and writes the process state and returns or
    raises; the state it leaves is kept in both cases. *)
Definition Py (A : Type) : Type := World -> result A * World.

Definition ret {A} (a : A) : Py A := fun w => (Return a, w).
Definition raise {A} (e : exception) : Py A := fun w => (Raise e, w).
Definition bind {A B} (c : Py A) (k : A -> Py B) : Py B :=
  fun w => match c w with
           | (Return a, w') => k a w'
           | (Raise e, w') => (Raise e, w')
           end.
Definition lift {A} (r : result A) : Py A := fun w => (r, w).

(** [try: body except Exception as e: handler]. *)
Definition try_except {A} (body : Py A) (handler : exception -> Py A) : Py A :=
  fun w => match body w with
           | (Return a, w') => (Return a, w')
           | (Raise e, w') => handler e w'
           end.

(** A computation that returns from every state. *)
Definition returns {A} (c : Py A) : Prop :=
  forall w, exists a w', c w = (Return a, w').

(** A computation whose final state is related to its initial state,
    whether it returns or raises. *)
Definition keeps {A} (R : World -> World -> Prop) (c : Py A) : Prop :=
  forall w, R w (snd (c w)).

(** What the scorer leaves alone: the queue and the table; and a log that
    exists still does, and has only grown. *)
Definition frame (w w' : World) : Prop :=
  emotion_queue w' = emotion_queue w /\
  conn w' = conn w /\
  (forall l, debug_status w = Some l ->
             exists l', debug_status w' = Some (l ++ l')%list).

Declare Scope py_scope.
Delimit Scope py_scope with py.
Notation "x <- c ;; k" := (bind c (fun x => k))
  (at level 100, c at next level, right associativity) : py_scope.
Notation "c ;; k" := (bind c (fun _ => k))
  (at level 100, right associativity) : py_scope.
Local Open Scope py_scope.

(** [st.session_state.debug_status.append(msg)]. *)
Definition status_append (msg : string) : Py unit := fun w =>
  match debug_status w with
  | Some l => (Return tt, set_debug_status (Some (l ++ [msg])%list) w)
  | None =>
      (Raise (AttributeError "st.session_state has no attribute debug_status"), w)
  end.

(** [if 'debug_status' in st.session_state: ...append(msg)]. *)
Definition status_append_if_present (msg : string) : Py unit := fun w =>
  match debug_status w with
  | Some l => (Return tt, set_debug_status (Some (l ++ [msg])%list) w)
  | None => (Return tt, w)
  end.

(** [time.sleep]. *)
Definition sleep (ms : Z) : Py unit := fun w => (Return tt, add_effect (Sleep ms) w).

(** [rate_limiter.can_request()] on the global limiter. *)
Definition rate_limiter_can_request (now : datetime) : Py bool := fun w =>
  let (ok, rl) := can_request now (rate_limiter w) in
  (Return ok, set_rate_limiter rl w).

(** The call of the service, recorded among the effects. *)
Definition call_generate_content (client : Client) (model : string)
  (contents : list string) : Py Response := fun w =>
  (generate_content client model contents, add_effect (ApiCall model contents) w).

(** ** The scorer *)

Definition nl : string := String (ascii_of_nat 10) EmptyString.

(** [EMOTION_PROMPT.format(text=text)]. *)
Definition EMOTION_PROMPT_format (text : string) : string :=
  nl +:+ "以下のオープンキャンパスの感想文から、4つの感情の強さを0-10の数値で分析してください。" +:+ nl +:+
  nl +:+ "感想文: " +:+ dq +:+ text +:+ dq +:+ nl +:+
  nl +:+ "以下のJSON形式で回答してください：" +:+ nl +:+
  "{" +:+ nl +:+
  "    " +:+ dq +:+ "happiness" +:+ dq +:+ ": 数値(0-10)," +:+ nl +:+
  "    " +:+ dq +:+ "excitement" +:+ dq +:+ ": 数値(0-10)," +:+ nl +:+
  "    " +:+ dq +:+ "satisfaction" +:+ dq +:+ ": 数値(0-10)," +:+ nl +:+
  "    " +:+ dq +:+ "concern" +:+ dq +:+ ": 数値(0-10)" +:+ nl +:+
  "}" +:+ nl +:+
  nl +:+ "感情の定義：" +:+ nl +:+
  "- happiness: 楽しさ、喜び" +:+ nl +:+
  "- excitement: わくわく感、期待感" +:+ nl +:+
  "- satisfaction: 満足感、充実感" +:+ nl +:+
  "- concern: 不安、心配" +:+ nl.

Definition emotions_of (h e s c : float) : gmap string pyval :=
  <["happiness" := PyFloat h]>
    (<["excitement" := PyFloat e]>
       (<["satisfaction" := PyFloat s]>
          (<["concern" := PyFloat c]> ∅))).

(** The fallback of a missing client and of a failed call. *)
Definition fallback_neutral : gmap string pyval := emotions_of 5 5 5 5.

(** The fallback of a reply without a JSON object. *)
Definition fallback_parse : gmap string pyval := emotions_of 6 7 5 3.

(** The messages of the four outcomes that carry one. *)
Definition msg_no_client : string := "Google AI APIが利用できません".
Definition msg_rate_limit : string := "API レート制限中のため待機しています".
Definition msg_api_error (e : exception) : string :=
  "API呼び出しエラー: " +:+ exc_str e.
Definition msg_parse_error (result_text : string) : string :=
  "AIの応答解析に失敗しました。推定値を使用: " +:+ py_take 50 result_text +:+ "...".

(** The model the scorer asks for. *)
Definition MODEL : string := "gemini-2.5-flash-lite".

(** The tuple [(emotions, error_type, error_message)]. *)
Definition analysis : Type :=
  option (gmap string pyval) * option string * option string.

(** [x[:n]] where [x] may be [None]. *)
Definition slice_to (n : nat) (x : option string) : result string :=
  match x with
  | Some s => Return (py_take n s)
  | None => Raise (TypeError "'NoneType' object is not subscriptable")
  end.

(** [re.search(pattern, x)] where [x] may be [None]. *)
Definition re_search_in (x : option string) : result (option string * string) :=
  match x with
  | Some s => Return (re_search s, s)
  | None => Raise (TypeError "expected string or bytes-like object, got 'NoneType'")
  end.

(** The score cells of the UPDATE for a score set: the four lookups in
    the order of the parameter tuple, then the four bindings; the first
    that fails decides the exception. *)
Definition update_params (emotions : gmap string pyval)
  : result (sqlval * sqlval * sqlval * sqlval) :=
  match getitem emotions "happiness" with
  | Raise e => Raise e
  | Return h =>
  match getitem emotions "excitement" with
  | Raise e => Raise e
  | Return e =>
  match getitem emotions "satisfaction" with
  | Raise e => Raise e
  | Return s =>
  match getitem emotions "concern" with
  | Raise e => Raise e
  | Return c =>
  match bind_param h with
  | Raise e => Raise e
  | Return h' =>
  match bind_param e with
  | Raise e => Raise e
  | Return e' =>
  match bind_param s with
  | Raise e => Raise e
  | Return s' =>
  match bind_param c with
  | Raise e => Raise e
  | Return c' => Return (h', e', s', c')
  end end end end end end end end.

(** The guarded log line about the reply, which quotes [result_text[:50]]:
    the slice is only taken, and can only fail, when the log exists. *)
Definition log_reply_if_present (result_text : option string) : Py unit := fun w =>
  match debug_status w with
  | Some _ =>
      (head50 <- lift (slice_to 50 result_text) ;;
       status_append_if_present ("✅ AI応答受信: " +:+ head50 +:+ "...")) w
  | None => (Return tt, w)
  end.

Section Pipeline.

(** [json.loads] on the text of a match: a dict, or an error.  The match
    opens with a brace and holds one closing brace, its last character, so
    that a decoded value is never itself an object. *)
Variable json_loads : string -> result (gmap string pyval).

(** The body of the [try] of [analyze_emotion_with_ai]. *)
Definition analyze_try (text : string) (client : Client) : Py analysis :=
  status_append_if_present ("🤖 感情分析実行中: " +:+ py_take 30 text +:+ "...") ;;
  response <- call_generate_content client MODEL [EMOTION_PROMPT_format text] ;;
  let result_text := response_text response in
  log_reply_if_present result_text ;;
  found <- lift (re_search_in result_text) ;;
  let (json_match, result_str) := found in
  match json_match with
  | Some group =>
      emotions <- lift (json_loads group) ;;
      status_append_if_present "✅ 感情分析完了" ;;
      ret (Some emotions, None, None)
  | None =>
      status_append_if_present ("⚠️ JSON解析失敗: " +:+ result_str) ;;
      ret (Some fallback_parse, Some "parse_error",
           Some (msg_parse_error result_str))
  end.

(** The [except Exception as e] of [analyze_emotion_with_ai]. *)
Definition analyze_except (e : exception) : Py analysis :=
  status_append_if_present ("❌ API呼び出しエラー: " +:+ exc_str e) ;;
  ret (Some fallback_neutral, Some "api_error", Some (msg_api_error e)).

(** [analyze_emotion_with_ai(text, client)]; [now] is the reading of the
    clock the limiter takes if it is asked. *)
Definition analyze_emotion_with_ai (text : string) (client : option Client)
  (now : datetime) : Py analysis :=
  match client with
  | None =>
      ret (Some fallback_neutral, Some "api_error", Some msg_no_client)
  | Some c =>
      admitted <- rate_limiter_can_request now ;;
      if negb admitted
      then ret (None, Some "rate_limit", Some msg_rate_limit)
      else try_except (analyze_try text c) analyze_except
  end.

(** ** The background worker *)

(** The lines the worker writes to the log. *)
Definition status_processing (post_id : Z) : string :=
  "📝 投稿ID " +:+ pretty post_id +:+ " を処理中...".
Definition status_content (content : string) : string :=
  "📄 投稿内容: " +:+ py_take 30 content +:+ "...".
Definition status_requeue : string := "⏳ レート制限中、再キューイング...".
Definition status_saved (post_id : Z) : string :=
  "💾 投稿ID " +:+ pretty post_id +:+ " の分析完了・保存".
Definition status_not_found (post_id : Z) : string :=
  "❓ 投稿ID " +:+ pretty post_id +:+ " が見つかりません".
Definition status_error (e : exception) : string :=
  "❌ バックグラウンド処理エラー: " +:+ exc_str e.

(** [debug_status[-10:]] when the log has more than ten lines. *)
Definition trimmed (l : list string) : list string :=
  if (10 <? length l)%nat then skipn (length l - 10) l else l.

(** [st.session_state.emotion_queue.empty()]. *)
Definition queue_empty : Py bool := fun w =>
  (Return (match emotion_queue w with [] => true | _ => false end), w).

(** [emotion_queue.get(timeout=1)]. *)
Definition queue_get : Py Z := fun w =>
  match emotion_queue w with
  | [] => (Raise queue_Empty, w)
  | post_id :: q => (Return post_id, set_queue q w)
  end.

(** [emotion_queue.put(post_id)]. *)
Definition queue_put (post_id : Z) : Py unit := fun w =>
  (Return tt, set_queue (emotion_queue w ++ [post_id])%list w).

Definition fetch_unprocessed (post_id : Z) : Py (option string) := fun w =>
  (Return (select_unprocessed_content post_id (conn w)), w).

(** [cursor.execute(UPDATE ..., params)] and [conn.commit()]: the
    parameters are bound first, and a value that cannot be bound raises
    before any row is touched. *)
Definition execute_update (h e s c : pyval) (et em : option string) (post_id : Z)
  : Py unit :=
  h' <- lift (bind_param h) ;;
  e' <- lift (bind_param e) ;;
  s' <- lift (bind_param s) ;;
  c' <- lift (bind_param c) ;;
  fun w => (Return tt, set_conn (update_post post_id h' e' s' c' et em (conn w)) w).

(** [if len(debug_status) > 10: debug_status = debug_status[-10:]]. *)
Definition trim_status : Py unit := fun w =>
  match debug_status w with
  | Some l =>
      if (10 <? length l)%nat
      then (Return tt, set_debug_status (Some (skipn (length l - 10) l)) w)
      else (Return tt, w)
  | None =>
      (Raise (AttributeError "st.session_state has no attribute debug_status"), w)
  end.

(** What the worker does with the tuple the scorer returned.  The branch
    of a missing score set ends in [continue], and so leaves without the
    closing [time.sleep(0.5)] of the loop; the other builds the parameter
    tuple of the UPDATE, one [emotions[...]] after the other, executes it
    and commits. *)
Definition handle_outcome (post_id : Z) (outcome : analysis) : Py unit :=
  let '(emotions, error_type, error_message) := outcome in
  match emotions with
  | None =>
      status_append status_requeue ;;
      queue_put post_id ;;
      sleep 5000
  | Some emotions =>
      h <- lift (getitem emotions "happiness") ;;
      e <- lift (getitem emotions "excitement") ;;
      s <- lift (getitem emotions "satisfaction") ;;
      c <- lift (getitem emotions "concern") ;;
      execute_update h e s c error_type error_message post_id ;;
      status_append (status_saved post_id) ;;
      trim_status ;;
      sleep 500
  end.

(** The state in which the worker calls the scorer for the identifier it
    has taken off the queue [post_id :: q]. *)
Definition in_flight (post_id : Z) (q : list Z) (content : string)
  (log : list string) (w : World) : World :=
  mkWorld q (conn w) (rate_limiter w)
          (Some ((log ++ [status_processing post_id]) ++ [status_content content])%list)
          (effects w).

(** The body of the [try] of one turn of the [while True] loop of
    [process_emotion_queue]. *)
Definition loop_try (client : option Client) (now : datetime) : Py unit :=
  empty <- queue_empty ;;
  if negb empty then
    post_id <- queue_get ;;
    status_append (status_processing post_id) ;;
    result <- fetch_unprocessed post_id ;;
    match result with
    | Some content =>
        status_append (status_content content) ;;
        outcome <- analyze_emotion_with_ai content client now ;;
        handle_outcome post_id outcome
    | None =>
        status_append (status_not_found post_id) ;;
        sleep 500
    end
  else sleep 500.

Definition is_queue_Empty (e : exception) : bool :=
  String.eqb (exc_class e) "queue.Empty".

(** The two [except] clauses of the loop: [queue.Empty] is passed over,
    any other exception is logged and followed by a pause of a second. *)
Definition loop_except (e : exception) : Py unit :=
  if is_queue_Empty e then ret tt
  else (status_append (status_error e) ;; sleep 1000).

(** One turn of the loop with its two [except] clauses.  A [Raise] here is
    an exception that leaves the loop and ends the worker thread. *)
Definition loop_iteration (client : option Client) (now : datetime) : Py unit :=
  try_except (loop_try client now) loop_except.

(** The statements of [process_emotion_queue] before the loop. *)
Definition process_emotion_queue_start : Py unit := fun w =>
  status_append "🔄 バックグラウンド処理開始"
    (match debug_status w with
     | None => set_debug_status (Some []) w
     | Some _ => w
     end).

(** ** The foreground: what the pages do to the shared state *)

(** The runs of the script.  [rate_limiter = RateLimiter()] is a statement
    of the script itself, so every run builds a limiter of its own and its
    pages look at that one.  The worker thread is started once, by the
    first run of the session (the run that finds [processing] false), and
    goes on calling the functions of that run: its limiter, the
    [rate_limiter] of the state, is the one that run built.  A page
    therefore reaches the limiter of the worker in the starting run only;
    in every later run it looks at a limiter that was empty when the run
    began and is dropped when it ends. *)
Inductive script_run :=
| StartingRun
| LaterRun.

(** The submission of the form in [main]: the row and the queue entry.  A
    form is submitted in a later run, so the look at the limiter that
    follows is [preview LaterRun]. *)
Definition submit_post (content : string) (now : datetime) (w : World) : World :=
  match content with
  | EmptyString => w
  | _ =>
      let (post_id, d) := insert_post content now (conn w) in
      set_queue (emotion_queue w ++ [post_id])%list (set_conn d w)
  end.

(** The button of [add_debug_controls] that queues unprocessed posts again. *)
Definition force_process (w : World) : World :=
  set_queue (emotion_queue w ++ select_unprocessed_ids (conn w))%list w.

(** [if not rate_limiter.can_request()] of a page, after a submission, in
    the list of posts or in the sidebar: in the starting run the call is
    recorded by the limiter of the worker; in a later run it goes to the
    limiter of that run and leaves the state as it is. *)
Definition preview (r : script_run) (now : datetime) (w : World) : World :=
  match r with
  | StartingRun => set_rate_limiter (snd (can_request now (rate_limiter w))) w
  | LaterRun => w
  end.

(** What happens to the state, one event after the other.  The lists of
    events are not restricted to those a session can produce (in a
    session the looks of the starting run come before any submission):
    what holds for all of them holds for those. *)
Inductive event :=
| Submit (content : string) (now : datetime)
| ForceProcess
| Preview (r : script_run) (now : datetime)
| WorkerTurn (client : option Client) (now : datetime).

Definition step (ev : event) (w : World) : World :=
  match ev with
  | Submit content now => submit_post content now w
  | ForceProcess => force_process w
  | Preview r now => preview r now w
  | WorkerTurn client now => snd (loop_iteration client now w)
  end.

Definition run (evs : list event) (w : World) : World :=
  fold_left (fun w ev => step ev w) evs w.

End Pipeline.

(** No row has an [id] above the last one AUTOINCREMENT gave out. *)
Definition db_wf (d : Database) : Prop :=
  forall id p, posts d !! id = Some p -> id <= last_rowid d.

(** A row that holds what the INSERT gave it. *)
Definition unanalysed (p : Post) : Prop :=
  p = new_post (content p) (timestamp p).

(** The state the script sets up before the worker thread starts. *)
Definition initial_world : World :=
  mkWorld [] (mkDatabase ∅ 0) RateLimiter_default (Some []) [].

(** ** States and clients for the examples *)

Definition seconds (n : Z) : datetime := n * us_per_second.

(** A client whose call returns the reply [s]. *)
Definition client_replying (s : string) : Client :=
  mkClient (fun _ _ => Return (mkResponse (Some s))).

(** A client whose call raises [e]. *)
Definition client_raising (e : exception) : Client :=
  mkClient (fun _ _ => Raise e).

Definition a_post : string := "今日は楽しかった".

(** The script has started and one post has been submitted at the epoch:
    row 1 is in the table and its identifier in the queue. *)
Definition one_post_world : World := submit_post a_post 0 initial_world.

(** The same with the limiter at full capacity: fifteen admissions in the
    first fifteen seconds. *)
Definition full_limiter_world : World :=
  set_rate_limiter (after_calls burst RateLimiter_default) one_post_world.

(** Identifier 7 is queued and the table has no such row. *)
Definition stray_id_world : World := set_queue [7] initial_world.

(** ** Lengths and titles *)

(** [len(s)]: the number of code points of [s]. *)
Fixpoint py_len (s : string) : nat :=
  match s with
  | EmptyString => O
  | String c r => ((if is_continuation c then 0 else 1) + py_len r)%nat
  end.

(** The heading of a post in the list of [main]:
    [content[:100]] followed by three dots when [len(content) > 100]. *)
Definition post_title (content : string) : string :=
  py_take 100 content +:+ (if (100 <? py_len content)%nat then "..." else "").

(** ** Counting the calls of the service *)

(** How many calls of the service a trace of effects holds. *)
Fixpoint api_calls (l : list effect) : nat :=
  match l with
  | [] => O
  | ApiCall _ _ :: l' => S (api_calls l')
  | Sleep _ :: l' => api_calls l'
  end.

(** Whether a turn of the worker gets as far as asking the limiter: the
    log is in place, an identifier is queued, its row is found unprocessed
    and a client is configured. *)
Definition turn_asks_limiter (client : option Client) (w : World) : bool :=
  match emotion_queue w, debug_status w, client with
  | post_id :: _, Some _, Some _ =>
      match select_unprocessed_content post_id (conn w) with
      | Some _ => true
      | None => false
      end
  | _, _, _ => false
  end.

(** Whether a turn of the worker calls the service: it asks the limiter,
    and the limiter admits at this reading of the clock. *)
Definition turn_calls_service (client : option Client) (now : datetime)
  (w : World) : bool :=
  turn_asks_limiter client w && fst (can_request now (rate_limiter w)).

(** The state of a computation differs from the one it started in by lines
    of the log at most. *)
Definition log_only (w w' : World) : Prop :=
  emotion_queue w' = emotion_queue w /\
  conn w' = conn w /\
  rate_limiter w' = rate_limiter w /\
  effects w' = effects w.

(** ** The clock along a run *)

(** The reading of the clock an event takes for the limiter of the
    worker; a submission, the button that queues posts again and a look
    of a later run take none. *)
Definition event_reading (ev : event) : option datetime :=
  match ev with
  | Submit _ _ => None
  | ForceProcess => None
  | Preview StartingRun now => Some now
  | Preview LaterRun _ => None
  | WorkerTurn _ now => Some now
  end.

(** The reading at which an event calls [can_request] on the limiter of
    the worker, when it does: a look of a page in the starting run, a
    turn of the worker that reaches the scorer with a client. *)
Definition asks_limiter (ev : event) (w : World) : option datetime :=
  match ev with
  | Submit _ _ => None
  | ForceProcess => None
  | Preview StartingRun now => Some now
  | Preview LaterRun _ => None
  | WorkerTurn client now => if turn_asks_limiter client w then Some now else None
  end.

Section Runs.

Variable json_loads : string -> result (gmap string pyval).

(** The readings at which the events of a run call [can_request] on the
    limiter of the worker. *)
Fixpoint limiter_readings (evs : list event) (w : World) : list datetime :=
  match evs with
  | [] => []
  | ev :: evs' =>
      (match asks_limiter ev w with
       | Some t => [t]
       | None => []
       end ++ limiter_readings evs' (step json_loads ev w))%list
  end.

(** The readings at which the turns of the worker in a run call the
    service. *)
Fixpoint service_call_times (evs : list event) (w : World) : list datetime :=
  match evs with
  | [] => []
  | ev :: evs' =>
      (match ev with
       | WorkerTurn client now =>
           if turn_calls_service client now w then [now] else []
       | _ => []
       end ++ service_call_times evs' (step json_loads ev w))%list
  end.

End Runs.

(** Every identifier in the queue is the [id] of a row of the table. *)
Definition queue_has_rows (w : World) : Prop :=
  forall id, In id (emotion_queue w) -> is_Some (posts (conn w) !! id).

(** ** Rows that hold estimates *)

(** A row without an error type has no error message; a row with one has
    been processed, its type is one of the two the scorer gives to a score
    set, it has a message, and its scores are the fallback of that type. *)
Definition error_columns_ok (p : Post) : Prop :=
  match error_type p with
  | None => error_message p = None
  | Some et =>
      processed p = true /\ is_Some (error_message p) /\
      ((et = "api_error" /\
        happiness p = SqlReal 5 /\ excitement p = SqlReal 5 /\
        satisfaction p = SqlReal 5 /\ concern p = SqlReal 5) \/
       (et = "parse_error" /\
        happiness p = SqlReal 6 /\ excitement p = SqlReal 7 /\
        satisfaction p = SqlReal 5 /\ concern p = SqlReal 3))
  end.

(** ** The statistics of the sidebar *)

(** [SELECT COUNT] over the rows of [posts] that satisfy a condition,
    followed by [fetchone()[0]]. *)
Definition count_posts (cond : Post -> bool) (d : Database) : Z :=
  Z.of_nat (length (List.filter (fun kp => cond (snd kp)) (map_to_list (posts d)))).

(** No WHERE clause. *)
Definition total_posts (d : Database) : Z := count_posts (fun _ => true) d.

(** [WHERE processed = TRUE]. *)
Definition processed_posts (d : Database) : Z := count_posts processed d.

(** [WHERE processed = FALSE]. *)
Definition pending_posts (d : Database) : Z :=
  count_posts (fun p => negb (processed p)) d.

(** [WHERE error_type IS NOT NULL]. *)
Definition error_posts (d : Database) : Z :=
  count_posts (fun p => match error_type p with Some _ => true | None => false end) d.

(** How many events of a run insert a row: the submissions with a content. *)
Definition submissions (evs : list event) : Z :=
  Z.of_nat (length (List.filter (fun ev => match ev with
                                           | Submit (String _ _) _ => true
                                           | _ => false
                                           end) evs)).

(** ** The participation rate of the QR page *)

(** [(total_posts / 200) * 100 if total_posts <= 200 else 100] for a count,
    which is never negative: true division and a product of floats in one
    branch, the int [100] in the other. *)
Definition participation_rate (total_posts : Z) : pyval :=
  if total_posts <=? 200
  then PyFloat (PrimFloat.mul
                  (PrimFloat.div (PrimFloat.of_uint63 (Uint63.of_Z total_posts)) 200)
                  100)
  else PyInt 100.

(** The rate lies between zero and a hundred. *)
Definition rate_in_range (v : pyval) : bool :=
  match v with
  | PyFloat x => PrimFloat.leb 0 x && PrimFloat.leb x 100
  | PyInt z => (0 <=? z) && (z <=? 100)
  | _ => false
  end.

(** The rate does not go down from one count to the next. *)
Definition rate_leb (v1 v2 : pyval) : bool :=
  match v1, v2 with
  | PyFloat x, PyFloat y => PrimFloat.leb x y
  | PyFloat x, PyInt z => PrimFloat.leb x (PrimFloat.of_uint63 (Uint63.of_Z z))
  | PyInt z1, PyInt z2 => z1 <=? z2
  | _, _ => false
  end.

(** Both, at one count. *)
Definition rate_check (n : Z) : bool :=
  rate_in_range (participation_rate n) &&
  rate_leb (participation_rate n) (participation_rate (n + 1)).

(** * Properties of the rate limiter *)

Section RateLimiterFacts.

Lemma us_per_second_pos : 0 < us_per_second.
Proof. reflexivity. Qed.

Lemma us_per_day_pos : 0 < us_per_day.
Proof. reflexivity. Qed.

(** Within a day, [.seconds] is the whole duration in seconds. *)
Lemma td_seconds_small (d : timedelta) :
  0 <= d < us_per_day -> td_seconds d = d / us_per_second.
Proof.
  intros Hd. unfold td_seconds. now rewrite Z.mod_small.
Qed.

(** [.seconds] never exceeds the duration. *)
Lemma td_seconds_le (d : timedelta) :
  0 <= d -> td_seconds d <= d / us_per_second.
Proof.
  intros Hd. unfold td_seconds.
  apply Z.div_le_mono; [apply us_per_second_pos|].
  apply Z.mod_le; [assumption | apply us_per_day_pos].
Qed.

(** What [.seconds] leaves out: the whole duration is the days and the
    seconds together. *)
Lemma td_seconds_days (d : timedelta) :
  td_total_seconds_floor d = td_days d * seconds_per_day + td_seconds d.
Proof.
  unfold td_total_seconds_floor, td_days, td_seconds, us_per_day.
  pose proof us_per_second_pos as Hs.
  assert (Hd : 0 < seconds_per_day) by reflexivity.
  rewrite (Z.mul_comm seconds_per_day us_per_second).
  rewrite Z.rem_mul_r by lia.
  rewrite <- Z.div_div by lia.
  rewrite (Z.mul_comm us_per_second), Z.div_add by lia.
  rewrite (Z.div_small (d mod us_per_second)) by (apply Z.mod_pos_bound; lia).
  pose proof (Z.div_mod (d / us_per_second) seconds_per_day). lia.
Qed.

Lemma in_windowb_spec (w : Z) (now t : datetime) :
  in_windowb w now t = true <-> in_window w now t.
Proof.
  unfold in_windowb, in_window.
  rewrite andb_true_iff, Z.leb_le, Z.ltb_lt. reflexivity.
Qed.

Lemma div_lt_iff (d w : Z) : d / us_per_second < w <-> d < w * us_per_second.
Proof.
  pose proof us_per_second_pos as Hpos.
  pose proof (Z.mul_div_le d us_per_second Hpos).
  pose proof (Z.mul_succ_div_gt d us_per_second Hpos).
  split; intros; nia.
Qed.

(** For a timestamp of the last day, the test of [can_request] is the
    window of the specification. *)
Lemma window_test_fresh (w : Z) (now t : datetime) :
  0 <= now - t < us_per_day ->
  (td_seconds (now - t) <? w) = in_windowb w now t.
Proof.
  intros Hd. unfold in_windowb.
  rewrite td_seconds_small by assumption.
  replace (t <=? now) with true by (symmetry; apply Z.leb_le; lia).
  cbn [andb].
  destruct (Z.ltb_spec (now - t) (w * us_per_second)) as [H|H];
    [apply Z.ltb_lt | apply Z.ltb_ge].
  - now apply div_lt_iff.
  - destruct (Z.lt_ge_cases ((now - t) / us_per_second) w) as [H'|H']; [|lia].
    apply div_lt_iff in H'. lia.
Qed.

(** A timestamp of the window, however old the others are, passes the test
    of [can_request]. *)
Lemma window_test_keeps (w : Z) (now t : datetime) :
  in_windowb w now t = true -> (td_seconds (now - t) <? w) = true.
Proof.
  unfold in_windowb. intros H.
  apply andb_prop in H as [H1 H2].
  apply Z.leb_le in H1. apply Z.ltb_lt in H2.
  apply Z.ltb_lt.
  eapply Z.le_lt_trans; [apply td_seconds_le; lia|].
  now apply div_lt_iff.
Qed.

Lemma freshb_fresh (now : datetime) (rl : RateLimiter) :
  freshb now rl = true -> fresh now rl.
Proof.
  unfold freshb, fresh. intros H. apply List.Forall_forall. intros t Ht.
  rewrite forallb_forall in H. specialize (H t Ht).
  apply andb_prop in H as [H1 H2].
  apply Z.leb_le in H1. apply Z.ltb_lt in H2. lia.
Qed.

Lemma prune_fresh (now : datetime) (rl : RateLimiter) :
  fresh now rl ->
  prune now rl = List.filter (in_windowb (time_window rl) now) (requests rl).
Proof.
  unfold fresh, prune. intros H.
  induction H as [|t l Ht Hl IH]; [reflexivity|].
  cbn [List.filter]. rewrite window_test_fresh by assumption.
  now rewrite IH.
Qed.

Lemma filter_all_length {A} (f : A -> bool) (l : list A) :
  (length l <= length (List.filter f l))%nat -> List.filter f l = l.
Proof.
  induction l as [|a l IH]; [reflexivity|].
  cbn [List.filter length]. pose proof (List.filter_length_le f l) as Hle.
  destruct (f a); cbn [length]; intros H.
  - f_equal. apply IH. lia.
  - lia.
Qed.

Lemma set_requests_id (rl : RateLimiter) : set_requests rl (requests rl) = rl.
Proof. now destruct rl. Qed.

(** The contract of [can_request] on a state whose timestamps are all of
    the last day: it admits exactly when fewer than [max_requests]
    recorded admissions lie in the window, and then records [now] behind
    those. *)
Lemma can_request_fresh (now : datetime) (rl : RateLimiter) :
  fresh now rl ->
  fst (can_request now rl) = (admitted_in_window now rl <? max_requests rl) /\
  (fst (can_request now rl) = true ->
   requests (snd (can_request now rl)) =
   (List.filter (in_windowb (time_window rl) now) (requests rl) ++ [now])%list).
Proof.
  intros Hf. unfold can_request, admitted_in_window.
  rewrite (prune_fresh now rl Hf).
  destruct (_ <? max_requests rl); cbn; split; congruence.
Qed.

(** A rejecting call leaves a limiter that holds no more than
    [max_requests] timestamps as it found it. *)
Lemma can_request_reject_unchanged (now : datetime) (rl : RateLimiter) :
  Z.of_nat (length (requests rl)) <= max_requests rl ->
  fst (can_request now rl) = false ->
  snd (can_request now rl) = rl.
Proof.
  unfold can_request. intros Hlen.
  destruct (Z.ltb_spec (Z.of_nat (length (prune now rl))) (max_requests rl)) as [H|H];
    cbn; [discriminate|intros _].
  unfold prune in *. rewrite filter_all_length; [apply set_requests_id|].
  apply Nat2Z.inj_le. etransitivity; eassumption.
Qed.

(** The limiter never holds more than [max_requests] timestamps once it
    holds no more than that. *)
Lemma can_request_length (now : datetime) (rl : RateLimiter) :
  Z.of_nat (length (requests rl)) <= max_requests rl ->
  Z.of_nat (length (requests (snd (can_request now rl)))) <= max_requests rl.
Proof.
  unfold can_request. intros Hlen.
  pose proof (List.filter_length_le
                (fun req_time => td_seconds (now - req_time) <? time_window rl)
                (requests rl)) as Hle.
  fold (prune now rl) in Hle.
  destruct (Z.ltb_spec (Z.of_nat (length (prune now rl))) (max_requests rl)) as [H|H];
    cbn [snd set_requests requests].
  - rewrite length_app. cbn [length]. lia.
  - lia.
Qed.

Lemma can_request_params (now : datetime) (rl : RateLimiter) :
  max_requests (snd (can_request now rl)) = max_requests rl /\
  time_window (snd (can_request now rl)) = time_window rl.
Proof.
  unfold can_request. destruct (_ <? _); cbn; auto.
Qed.

End RateLimiterFacts.

(** * The limiter over a series of calls *)

Section RateLimiterRuns.

Lemma admissions_In (times : list datetime) :
  forall (rl : RateLimiter) (x : datetime),
    In x (admissions times rl) -> In x times.
Proof.
  induction times as [|t ts IH]; intros rl x; cbn [admissions]; [tauto|].
  destruct (can_request t rl) as [ok rl'].
  rewrite in_app_iff. intros [Hx|Hx].
  - destruct ok; cbn in Hx; [left|]; tauto.
  - right. eauto.
Qed.

Lemma filter_none {A} (f : A -> bool) (l : list A) :
  (forall x, In x l -> f x = false) -> List.filter f l = [].
Proof.
  induction l as [|a l IH]; intros H; [reflexivity|].
  cbn [List.filter]. rewrite (H a) by (now left).
  apply IH. intros x Hx. apply H. now right.
Qed.

Lemma filter_filter_absorb {A} (f g : A -> bool) (l : list A) :
  (forall x, In x l -> f x = true -> g x = true) ->
  List.filter f (List.filter g l) = List.filter f l.
Proof.
  induction l as [|a l IH]; intros H; [reflexivity|].
  cbn [List.filter].
  assert (IH' : List.filter f (List.filter g l) = List.filter f l)
    by (apply IH; intros x Hx; apply H; now right).
  destruct (g a) eqn:Hg; cbn [List.filter].
  - now rewrite IH'.
  - destruct (f a) eqn:Hf; [|assumption].
    rewrite (H a) in Hg by (auto; now left). discriminate.
Qed.

(** A series of calls whose clock never runs backwards, on a limiter that
    holds no more than [max_requests] timestamps, none later than the
    calls: within any trailing window, the timestamps it held and the
    admissions it grants number at most [max_requests]. *)
Lemma admissions_window_bound_from (T : datetime) (times : list datetime) :
  forall rl : RateLimiter,
    StronglySorted Z.le times ->
    Forall (fun r => Forall (Z.le r) times) (requests rl) ->
    Z.of_nat (length (requests rl)) <= max_requests rl ->
    Z.of_nat (length (List.filter (in_windowb (time_window rl) T)
                        (requests rl ++ admissions times rl)))
    <= max_requests rl.
Proof.
  induction times as [|t ts IH]; intros rl Hsort Hold Hlen.
  - cbn [admissions]. rewrite app_nil_r.
    pose proof (List.filter_length_le (in_windowb (time_window rl) T) (requests rl)).
    lia.
  - apply StronglySorted_inv in Hsort as [Hsort Hts].
    cbn [admissions].
    pose proof (can_request_length t rl Hlen) as Hlen'.
    pose proof (can_request_params t rl) as [Hmax Hwin].
    assert (Hreq : requests (snd (can_request t rl)) =
                   (prune t rl ++ (if fst (can_request t rl) then [t] else []))%list).
    { unfold can_request. destruct (_ <? _); cbn; [reflexivity|].
      now rewrite app_nil_r. }
    assert (Hold' : Forall (fun r => Forall (Z.le r) ts)
                      (requests (snd (can_request t rl)))).
    { rewrite Hreq. apply Forall_app. split.
      - unfold prune. apply List.Forall_forall. intros r Hr.
        apply filter_In in Hr as [Hr _].
        rewrite List.Forall_forall in Hold. specialize (Hold r Hr).
        now apply Forall_inv_tail in Hold.
      - destruct (fst (can_request t rl)); constructor; [assumption|constructor]. }
    rewrite <- Hmax in Hlen'.
    specialize (IH (snd (can_request t rl)) Hsort Hold' Hlen').
    rewrite Hmax, Hwin, Hreq in IH.
    destruct (can_request t rl) as [ok rl'] eqn:Hcall. cbn [fst snd] in *.
    destruct (Z.lt_ge_cases T t) as [Hlt|Hge].
    + (* the window closes before this call: nothing later lies in it *)
      rewrite List.filter_app, length_app.
      rewrite (filter_none _ ((if ok then [t] else []) ++ admissions ts rl')).
      * pose proof (List.filter_length_le (in_windowb (time_window rl) T) (requests rl)).
        cbn [length]. lia.
      * intros x Hx.
        assert (Hxt : t <= x).
        { apply in_app_iff in Hx as [Hx|Hx].
          - destruct ok; cbn in Hx; [|tauto]. lia.
          - apply admissions_In in Hx.
            rewrite List.Forall_forall in Hts. now apply Hts. }
        unfold in_windowb.
        replace (x <=? T) with false; [reflexivity|].
        symmetry. apply Z.leb_gt. lia.
    + (* the window reaches this call: what the call pruned lies outside it *)
      rewrite List.filter_app.
      rewrite <- (filter_filter_absorb (in_windowb (time_window rl) T)
                    (fun req_time => td_seconds (t - req_time) <? time_window rl)
                    (requests rl)).
      * fold (prune t rl). rewrite <- List.filter_app.
        now rewrite <- app_assoc in IH.
      * intros r Hr Hin. apply window_test_keeps.
        rewrite List.Forall_forall in Hold. specialize (Hold r Hr).
        apply Forall_inv in Hold.
        unfold in_windowb in *.
        apply andb_prop in Hin as [H1 H2].
        apply Z.leb_le in H1. apply Z.ltb_lt in H2.
        apply andb_true_intro. split; [apply Z.leb_le | apply Z.ltb_lt]; lia.
Qed.

(** From a limiter without recorded admissions: however the calls fall, at
    most [max_requests] admissions lie within any trailing window. *)
Theorem admissions_window_bound (T : datetime) (times : list datetime)
  (rl : RateLimiter) :
  StronglySorted Z.le times ->
  requests rl = [] ->
  0 <= max_requests rl ->
  Z.of_nat (length (List.filter (in_windowb (time_window rl) T)
                      (admissions times rl)))
  <= max_requests rl.
Proof.
  intros Hsort Hempty Hmax.
  pose proof (admissions_window_bound_from T times rl Hsort) as H.
  rewrite Hempty in H. cbn [app length] in H. apply H; [constructor|assumption].
Qed.

End RateLimiterRuns.

(** * The limiter across midnight, and [wait_time] *)

Section RateLimiterClaims.

(** C1, evaluated where the code leaves it: the default limiter after a
    burst of fifteen admitted calls, asked again one day and twenty seconds
    after the first of them with no call in between.  No recorded admission
    lies within the trailing sixty seconds, yet every one of them passes
    the test of the list comprehension, whose [.seconds] is between 6 and
    20, and the call is rejected. *)
Theorem can_request_after_one_day :
  let rl := after_calls burst RateLimiter_default in
  let now := (seconds_per_day + 20) * us_per_second in
  admissions burst RateLimiter_default = burst /\
  requests rl = burst /\
  admitted_in_window now rl = 0 /\
  forallb (fun t => (td_days (now - t) =? 1) &&
                    (td_seconds (now - t) <? time_window rl) &&
                    negb (in_windowb (time_window rl) now t))
          (requests rl) = true /\
  prune now rl = burst /\
  can_request now rl = (false, rl).
Proof.
  cbv zeta.
  assert (Hadm : admissions burst RateLimiter_default = burst)
    by (vm_compute; reflexivity).
  assert (Hreq : requests (after_calls burst RateLimiter_default) = burst)
    by (vm_compute; reflexivity).
  split; [exact Hadm|]. split; [exact Hreq|].
  repeat split; vm_compute; reflexivity.
Qed.

Lemma list_min_le (l : list datetime) :
  forall d, list_min d l <= d /\ Forall (Z.le (list_min d l)) l.
Proof.
  unfold list_min. induction l as [|a l IH]; intros d; cbn [fold_left].
  - split; [lia|constructor].
  - destruct (IH (Z.min d a)) as [H1 H2]. split; [lia|].
    constructor; [lia|assumption].
Qed.

Lemma list_min_In (l : list datetime) :
  forall d, In (list_min d l) (d :: l).
Proof.
  unfold list_min. induction l as [|a l IH]; intros d; cbn [fold_left].
  - now left.
  - destruct (IH (Z.min d a)) as [H|H].
    + destruct (Z.min_spec d a) as [[_ Hm]|[_ Hm]]; rewrite Hm in *.
      * now left.
      * right. now left.
    + right. now right.
Qed.

(** What [oldest_request] names is a recorded timestamp, and none is
    older. *)
Lemma oldest_request_spec (rl : RateLimiter) (oldest : datetime) :
  oldest_request rl = Some oldest ->
  In oldest (requests rl) /\ Forall (Z.le oldest) (requests rl).
Proof.
  unfold oldest_request. destruct (requests rl) as [|r rs]; [discriminate|].
  intros [= <-]. split; [apply list_min_In|].
  destruct (list_min_le rs r) as [H1 H2]. now constructor.
Qed.

Lemma seconds_up_remaining (w : Z) (now t : datetime) :
  seconds_up (remaining w now t) = w - (now - t) / us_per_second.
Proof.
  unfold seconds_up, remaining.
  replace (- (t + w * us_per_second - now)) with ((now - t) + (- w) * us_per_second) by lia.
  rewrite Z.div_add by (pose proof us_per_second_pos; lia). lia.
Qed.

(** The claim of C2 as it stands fails: one admission is recorded, so the
    limiter has room for fourteen more, and ten seconds later [wait_time]
    is 50, not 0. *)
Lemma wait_time_with_spare_capacity :
  let rl := snd (can_request 0 RateLimiter_default) in
  let now := 10 * us_per_second in
  admitted_in_window now rl = 1 /\ max_requests rl = 15 /\
  fst (can_request now rl) = true /\
  wait_time now rl = 50.
Proof. vm_compute. repeat split; reflexivity. Qed.

(** C2, amended.  [wait_time] is 0 when no timestamp is recorded.
    Otherwise, whether or not the limiter has room, it is the time left
    until the oldest recorded timestamp is [time_window] seconds old, in
    whole seconds rounded up, and 0 once that time has passed; this for an
    oldest timestamp that is less than a day old and not in the future. *)
Theorem wait_time_oldest (now : datetime) (rl : RateLimiter) :
  (oldest_request rl = None -> wait_time now rl = 0) /\
  (forall oldest,
      oldest_request rl = Some oldest ->
      0 <= now - oldest < us_per_day ->
      wait_time now rl =
      Z.max 0 (seconds_up (remaining (time_window rl) now oldest))).
Proof.
  unfold oldest_request, wait_time.
  destruct (requests rl) as [|r rs]; split; try discriminate; try reflexivity.
  intros oldest [= <-] Hage.
  rewrite seconds_up_remaining, td_seconds_small by assumption.
  reflexivity.
Qed.

(** The amended C2 at work: fifteen admissions from the epoch on, asked
    forty seconds and a half after the first: 19.5 seconds are left, and
    [wait_time] is 20. *)
Lemma wait_time_oldest_witness :
  let rl := after_calls burst RateLimiter_default in
  let now := 40 * us_per_second + 500000 in
  oldest_request rl = Some 0 /\
  0 <= now - 0 < us_per_day /\
  remaining (time_window rl) now 0 = 19500000 /\
  wait_time now rl = 20.
Proof.
  split; [reflexivity|]. split; [vm_compute; split; [discriminate|reflexivity]|].
  split; [reflexivity|].
  rewrite (proj2 (wait_time_oldest (40 * us_per_second + 500000)
                    (after_calls burst RateLimiter_default)) 0).
  - reflexivity.
  - reflexivity.
  - vm_compute. split; [discriminate|reflexivity].
Defined.

End RateLimiterClaims.

(** * The pattern of the scorer *)

Section PatternFacts.

Lemma append_cons (c : ascii) (a b : string) :
  String c a +:+ b = String c (a +:+ b).
Proof. reflexivity. Qed.

Lemma append_nil (b : string) : EmptyString +:+ b = b.
Proof. reflexivity. Qed.

Ltac norm_append := rewrite ?append_cons, ?append_nil in *.

Lemma span_not_close_spec (s : string) :
  s = fst (span_not_close s) +:+ snd (span_not_close s) /\
  no_close (fst (span_not_close s)) = true /\
  (snd (span_not_close s) = EmptyString \/
   exists r, snd (span_not_close s) = String "}"%char r).
Proof.
  induction s as [|c s IH]; cbn [span_not_close].
  - cbn. auto.
  - destruct (Ascii.eqb_spec c "}"%char) as [->|Hc]; cbn.
    + eauto.
    + destruct (span_not_close s) as [a b]. cbn in *.
      destruct IH as (Hs & Ha & Hb). repeat split.
      * norm_append. now rewrite <- Hs.
      * apply Ascii.eqb_neq in Hc. rewrite Hc. exact Ha.
      * exact Hb.
Qed.

(** The run before the first closing brace is the only prefix free of a
    closing brace that a closing brace follows. *)
Lemma span_not_close_unique (body post : string) :
  no_close body = true ->
  span_not_close (body +:+ String "}"%char post) = (body, String "}"%char post).
Proof.
  induction body as [|c body IH]; norm_append; cbn; [reflexivity|].
  destruct (Ascii.eqb c "}"%char); cbn; [discriminate|].
  intros H. now rewrite IH.
Qed.

Lemma match_at_Some (rest m : string) :
  match_at rest = Some m ->
  exists body post,
    rest = body +:+ String "}"%char post /\
    m = String "{"%char (body +:+ "}") /\
    body <> EmptyString /\ no_close body = true.
Proof.
  unfold match_at.
  destruct (span_not_close_spec rest) as (Hs & Ha & Hb).
  destruct (span_not_close rest) as [a b]. cbn in *.
  destruct a as [|c body]; [discriminate|].
  destruct Hb as [->|[r ->]]; [discriminate|].
  intros [= <-]. exists (String c body), r. repeat split; auto.
Qed.

Lemma match_at_complete (body post : string) :
  body <> EmptyString -> no_close body = true ->
  match_at (body +:+ String "}"%char post) = Some (String "{"%char (body +:+ "}")).
Proof.
  intros Hne Hnc. unfold match_at. rewrite span_not_close_unique by assumption.
  destruct body; [congruence|reflexivity].
Qed.

(** What [re_search] finds is an occurrence of the pattern in the text, an
    opening brace, one or more characters other than a closing brace, and a
    closing brace, and no occurrence starts further left; and when it finds
    nothing the text has no occurrence. *)
Theorem re_search_spec (s : string) :
  match re_search s with
  | Some m =>
      exists pre body post,
        s = pre +:+ String "{"%char (body +:+ String "}"%char post) /\
        m = String "{"%char (body +:+ "}") /\
        body <> EmptyString /\ no_close body = true /\
        forall pre' body' post',
          s = pre' +:+ String "{"%char (body' +:+ String "}"%char post') ->
          body' <> EmptyString -> no_close body' = true ->
          (String.length pre <= String.length pre')%nat
  | None =>
      forall pre' body' post',
        s = pre' +:+ String "{"%char (body' +:+ String "}"%char post') ->
        body' <> EmptyString -> no_close body' = true -> False
  end.
Proof.
  induction s as [|c s IH]; cbn [re_search].
  - intros [|c' pre'] body' post' H; norm_append; discriminate.
  - assert (Htail :
      match re_search s with
      | Some m =>
          exists pre body post,
            String c s = pre +:+ String "{"%char (body +:+ String "}"%char post) /\
            m = String "{"%char (body +:+ "}") /\
            body <> EmptyString /\ no_close body = true /\
            forall pre' body' post',
              String c s = pre' +:+ String "{"%char (body' +:+ String "}"%char post') ->
              body' <> EmptyString -> no_close body' = true ->
              pre' <> EmptyString ->
              (String.length pre <= String.length pre')%nat
      | None =>
          forall pre' body' post',
            String c s = pre' +:+ String "{"%char (body' +:+ String "}"%char post') ->
            body' <> EmptyString -> no_close body' = true ->
            pre' = EmptyString
      end).
    { destruct (re_search s) as [m|].
      - destruct IH as (pre & body & post & Hs & Hm & Hne & Hnc & Hleft).
        exists (String c pre), body, post. repeat split; auto.
        + norm_append. now rewrite Hs.
        + intros [|c' pre'] body' post' H Hne' Hnc' Hpre; [congruence|].
          norm_append. injection H as _ H. cbn.
          specialize (Hleft pre' body' post' H Hne' Hnc'). lia.
      - intros [|c' pre'] body' post' H Hne' Hnc'; [reflexivity|].
        norm_append. injection H as _ H. exfalso. eauto. }
    destruct (Ascii.eqb_spec c "{"%char) as [->|Hc].
    + destruct (match_at s) as [m|] eqn:Hm.
      * apply match_at_Some in Hm as (body & post & Hs & Hm & Hne & Hnc).
        exists EmptyString, body, post. norm_append. repeat split; auto.
        -- now rewrite Hs.
        -- intros. cbn. lia.
      * destruct (re_search s) as [m|].
        -- destruct Htail as (pre & body & post & Hs & Hm' & Hne & Hnc & Hleft).
           exists pre, body, post. repeat split; auto.
           intros pre' body' post' H Hne' Hnc'.
           destruct pre' as [|c' pre']; [|apply (Hleft _ _ _ H Hne' Hnc'); discriminate].
           norm_append. injection H as H. subst s.
           rewrite match_at_complete in Hm by assumption. discriminate.
        -- intros pre' body' post' H Hne' Hnc'.
           pose proof (Htail pre' body' post' H Hne' Hnc') as ->.
           norm_append. injection H as H. subst s.
           rewrite match_at_complete in Hm by assumption. discriminate.
    + destruct (re_search s) as [m|].
      * destruct Htail as (pre & body & post & Hs & Hm' & Hne & Hnc & Hleft).
        exists pre, body, post. repeat split; auto.
        intros pre' body' post' H Hne' Hnc'.
        destruct pre' as [|c' pre']; [|apply (Hleft _ _ _ H Hne' Hnc'); discriminate].
        norm_append. injection H as H _. congruence.
      * intros pre' body' post' H Hne' Hnc'.
        pose proof (Htail pre' body' post' H Hne' Hnc') as ->.
        norm_append. injection H as H _. congruence.
Qed.

End PatternFacts.

(** * Reasoning about [Py] computations *)

Section PyFacts.

Lemma returns_ret {A} (a : A) : returns (ret a).
Proof. intros w. unfold ret. eauto. Qed.

Lemma returns_bind {A B} (c : Py A) (k : A -> Py B) :
  returns c -> (forall a, returns (k a)) -> returns (bind c k).
Proof.
  intros Hc Hk w. unfold bind.
  destruct (Hc w) as (a & w' & ->). apply Hk.
Qed.

Lemma returns_try_except {A} (body : Py A) (handler : exception -> Py A) :
  (forall e, returns (handler e)) -> returns (try_except body handler).
Proof.
  intros Hh w. unfold try_except.
  destruct (body w) as [[a|e] w']; [eauto|apply Hh].
Qed.

Lemma returns_status_append_if_present (msg : string) :
  returns (status_append_if_present msg).
Proof.
  intros w. unfold status_append_if_present.
  destruct (debug_status w); eauto.
Qed.

Lemma returns_rate_limiter_can_request (now : datetime) :
  returns (rate_limiter_can_request now).
Proof.
  intros w. unfold rate_limiter_can_request.
  destruct (can_request now (rate_limiter w)); eauto.
Qed.

Section Keeps.

Context (R : World -> World -> Prop) `{!PreOrder R}.

Lemma keeps_ret {A} (a : A) : keeps R (ret a).
Proof. intros w. cbn. reflexivity. Qed.

Lemma keeps_lift {A} (r : result A) : keeps R (lift r).
Proof. intros w. cbn. reflexivity. Qed.

Lemma keeps_bind {A B} (c : Py A) (k : A -> Py B) :
  keeps R c -> (forall a, keeps R (k a)) -> keeps R (bind c k).
Proof.
  intros Hc Hk w. unfold bind. specialize (Hc w).
  destruct (c w) as [[a|e] w']; cbn in *; [|assumption].
  etransitivity; [eassumption|apply Hk].
Qed.

Lemma keeps_try_except {A} (body : Py A) (handler : exception -> Py A) :
  keeps R body -> (forall e, keeps R (handler e)) ->
  keeps R (try_except body handler).
Proof.
  intros Hb Hh w. unfold try_except. specialize (Hb w).
  destruct (body w) as [[a|e] w']; cbn in *; [assumption|].
  etransitivity; [eassumption|apply Hh].
Qed.

End Keeps.

#[local] Instance frame_preorder : PreOrder frame.
Proof.
  split.
  - intros w. unfold frame. repeat split. intros l ->. exists []. now rewrite app_nil_r.
  - intros w1 w2 w3 (Hq1 & Hc1 & Hd1) (Hq2 & Hc2 & Hd2). unfold frame.
    repeat split; [congruence|congruence|].
    intros l Hl. destruct (Hd1 l Hl) as [l1 Hl1]. destruct (Hd2 _ Hl1) as [l2 Hl2].
    exists (l1 ++ l2)%list. now rewrite app_assoc.
Qed.

Lemma frame_status_append_if_present (msg : string) :
  keeps frame (status_append_if_present msg).
Proof.
  intros w. unfold status_append_if_present.
  destruct (debug_status w) as [l|] eqn:Hl; cbn; [|reflexivity].
  unfold frame. cbn. repeat split. intros l0 Hl0. exists [msg]. congruence.
Qed.

Lemma frame_rate_limiter_can_request (now : datetime) :
  keeps frame (rate_limiter_can_request now).
Proof.
  intros w. unfold rate_limiter_can_request.
  destruct (can_request now (rate_limiter w)). cbn.
  unfold frame. cbn. repeat split. intros l ->. exists []. now rewrite app_nil_r.
Qed.

Lemma frame_call_generate_content (c : Client) (model : string)
  (contents : list string) :
  keeps frame (call_generate_content c model contents).
Proof.
  intros w. unfold call_generate_content, frame. cbn. repeat split.
  intros l ->. exists []. now rewrite app_nil_r.
Qed.

Lemma frame_log_reply_if_present (result_text : option string) :
  keeps frame (log_reply_if_present result_text).
Proof.
  intros w. unfold log_reply_if_present.
  destruct (debug_status w) eqn:Hl; [|reflexivity].
  apply keeps_bind; [typeclasses eauto|apply keeps_lift; typeclasses eauto|].
  intros a. apply frame_status_append_if_present.
Qed.

End PyFacts.

#[local] Existing Instance frame_preorder.

(** * Properties of the scorer and the worker *)

Section PipelineProperties.

Variable json_loads : string -> result (gmap string pyval).

Lemma analyze_except_returns (e : exception) : returns (analyze_except e).
Proof.
  unfold analyze_except. apply returns_bind.
  - apply returns_status_append_if_present.
  - intros _. apply returns_ret.
Qed.

(** The scorer returns a tuple whatever the client, the clock, the state
    and the decoder do. *)
Lemma analyze_returns (text : string) (client : option Client) (now : datetime) :
  returns (analyze_emotion_with_ai json_loads text client now).
Proof.
  unfold analyze_emotion_with_ai. destruct client as [c|]; [|apply returns_ret].
  apply returns_bind; [apply returns_rate_limiter_can_request|].
  intros [|]; cbn [negb]; [|apply returns_ret].
  apply returns_try_except, analyze_except_returns.
Qed.

Ltac frame_steps :=
  repeat first
    [ apply keeps_ret; typeclasses eauto
    | apply keeps_lift; typeclasses eauto
    | apply frame_status_append_if_present
    | apply frame_rate_limiter_can_request
    | apply frame_call_generate_content
    | apply frame_log_reply_if_present
    | apply keeps_bind; [typeclasses eauto| |intros ?]
    | match goal with
      | |- keeps _ (match ?x with _ => _ end) => destruct x; cbn [negb]
      end ].

Lemma analyze_frame (text : string) (client : option Client) (now : datetime) :
  keeps frame (analyze_emotion_with_ai json_loads text client now).
Proof.
  unfold analyze_emotion_with_ai. frame_steps.
  apply keeps_try_except; [typeclasses eauto| |].
  - unfold analyze_try. frame_steps.
  - intros e. unfold analyze_except. frame_steps.
Qed.

(** ** The turn of the worker, case by case *)

Lemma update_params_not_Empty (d : gmap string pyval) (e : exception) :
  update_params d = Raise e -> is_queue_Empty e = false.
Proof.
  unfold update_params, getitem.
  repeat match goal with
         | |- context [match ?m !! ?k with _ => _ end] => destruct (m !! k)
         end;
    try (intros [= <-]; reflexivity).
  repeat match goal with
         | |- context [bind_param ?v] =>
             let H := fresh in
             destruct (bind_param v) eqn:H;
             [|destruct v; cbn in H;
               repeat match type of H with
                      | context [if ?b then _ else _] => destruct b
                      end;
               try discriminate; injection H as <-; intros [= <-]; reflexivity]
         end.
  discriminate.
Qed.

(** The scorer gave no score set: the identifier goes back to the end of
    the queue, and the worker pauses five seconds. *)
Lemma handle_outcome_retry (post_id : Z) (et em : option string) (w : World)
  (log : list string) :
  debug_status w = Some log ->
  handle_outcome post_id (None, et, em) w =
  (Return tt,
   mkWorld (emotion_queue w ++ [post_id]) (conn w) (rate_limiter w)
           (Some (log ++ [status_requeue])%list) (effects w ++ [Sleep 5000])).
Proof.
  intros Hlog. unfold handle_outcome, bind, status_append, queue_put, sleep.
  rewrite Hlog. reflexivity.
Qed.

(** The scorer gave a score set: the row is written when the set supplies
    the four cells; otherwise the exception leaves the state as it was. *)
Lemma handle_outcome_scores (post_id : Z) (d : gmap string pyval)
  (et em : option string) (w : World) (log : list string) :
  debug_status w = Some log ->
  handle_outcome post_id (Some d, et, em) w =
  match update_params d with
  | Return (h, e, s, c) =>
      (Return tt,
       mkWorld (emotion_queue w) (update_post post_id h e s c et em (conn w))
               (rate_limiter w)
               (Some (trimmed (log ++ [status_saved post_id])))
               (effects w ++ [Sleep 500]))
  | Raise e => (Raise e, w)
  end.
Proof.
  intros Hlog.
  unfold handle_outcome, update_params, execute_update, bind, lift,
    status_append, trim_status, sleep, trimmed.
  destruct (getitem d "happiness") as [h|]; [|reflexivity].
  destruct (getitem d "excitement") as [e|]; [|reflexivity].
  destruct (getitem d "satisfaction") as [s|]; [|reflexivity].
  destruct (getitem d "concern") as [c|]; [|reflexivity].
  destruct (bind_param h) as [h'|]; [|reflexivity].
  destruct (bind_param e) as [e'|]; [|reflexivity].
  destruct (bind_param s) as [s'|]; [|reflexivity].
  destruct (bind_param c) as [c'|]; [|reflexivity].
  cbn -[Nat.ltb]. rewrite Hlog. cbn -[Nat.ltb].
  destruct (10 <? length (log ++ [status_saved post_id]))%nat; reflexivity.
Qed.

Lemma loop_except_logged (e : exception) (w : World) (log : list string) :
  debug_status w = Some log ->
  is_queue_Empty e = false ->
  loop_except e w =
  (Return tt,
   mkWorld (emotion_queue w) (conn w) (rate_limiter w)
           (Some (log ++ [status_error e])%list) (effects w ++ [Sleep 1000])).
Proof.
  intros Hlog He. unfold loop_except, bind, status_append, sleep.
  rewrite He, Hlog. reflexivity.
Qed.

(** The world the scorer is called in: the identifier is off the queue and
    two lines are in the log. *)
Lemma loop_try_found (client : option Client) (now : datetime) (w : World)
  (post_id : Z) (q : list Z) (content : string) (log : list string) :
  emotion_queue w = post_id :: q ->
  select_unprocessed_content post_id (conn w) = Some content ->
  debug_status w = Some log ->
  loop_try json_loads client now w =
  bind (analyze_emotion_with_ai json_loads content client now)
       (handle_outcome post_id)
       (in_flight post_id q content log w).
Proof.
  intros Hq Hsel Hlog.
  unfold loop_try, queue_empty, queue_get, fetch_unprocessed, in_flight,
    bind, status_append.
  repeat (first [rewrite Hq | rewrite Hlog | rewrite Hsel]; cbn).
  reflexivity.
Qed.

Lemma loop_try_missing (client : option Client) (now : datetime) (w : World)
  (post_id : Z) (q : list Z) (log : list string) :
  emotion_queue w = post_id :: q ->
  select_unprocessed_content post_id (conn w) = None ->
  debug_status w = Some log ->
  loop_try json_loads client now w =
  (Return tt,
   mkWorld q (conn w) (rate_limiter w)
           (Some ((log ++ [status_processing post_id]) ++ [status_not_found post_id])%list)
           (effects w ++ [Sleep 500])).
Proof.
  intros Hq Hsel Hlog.
  unfold loop_try, queue_empty, queue_get, fetch_unprocessed, bind,
    status_append, sleep.
  repeat (first [rewrite Hq | rewrite Hlog | rewrite Hsel]; cbn).
  reflexivity.
Qed.

Lemma loop_try_idle (client : option Client) (now : datetime) (w : World) :
  emotion_queue w = [] ->
  loop_try json_loads client now w =
  (Return tt,
   mkWorld [] (conn w) (rate_limiter w) (debug_status w) (effects w ++ [Sleep 500])).
Proof.
  intros Hq. unfold loop_try, queue_empty, bind, sleep. rewrite Hq. cbn.
  unfold add_effect. now rewrite Hq.
Qed.

Lemma frame_in_flight (text : string) (client : option Client) (now : datetime)
  (w : World) (post_id : Z) (q : list Z) (content : string) (log : list string) :
  let w2 := snd (analyze_emotion_with_ai json_loads text client now
                   (in_flight post_id q content log w)) in
  emotion_queue w2 = q /\ conn w2 = conn w /\
  exists log2, debug_status w2 = Some log2.
Proof.
  destruct (analyze_frame text client now (in_flight post_id q content log w))
    as (Hq & Hc & Hd).
  cbn in *. repeat split; [assumption|assumption|].
  destruct (Hd _ eq_refl) as [l' Hl']. eauto.
Qed.

(** One turn of the loop on an identifier whose unprocessed row is found,
    by what the scorer returned from the in-flight state. *)
Lemma loop_iteration_found (client : option Client) (now : datetime) (w : World)
  (post_id : Z) (q : list Z) (content : string) (log log2 : list string)
  (emotions : option (gmap string pyval)) (et em : option string) (w2 : World) :
  emotion_queue w = post_id :: q ->
  select_unprocessed_content post_id (conn w) = Some content ->
  debug_status w = Some log ->
  analyze_emotion_with_ai json_loads content client now
    (in_flight post_id q content log w) = (Return (emotions, et, em), w2) ->
  debug_status w2 = Some log2 ->
  loop_iteration json_loads client now w =
  match emotions with
  | None =>
      (Return tt,
       mkWorld (emotion_queue w2 ++ [post_id]) (conn w2) (rate_limiter w2)
               (Some (log2 ++ [status_requeue])%list) (effects w2 ++ [Sleep 5000]))
  | Some d =>
      match update_params d with
      | Return (h, e, s, c) =>
          (Return tt,
           mkWorld (emotion_queue w2) (update_post post_id h e s c et em (conn w2))
                   (rate_limiter w2)
                   (Some (trimmed (log2 ++ [status_saved post_id])))
                   (effects w2 ++ [Sleep 500]))
      | Raise exn =>
          (Return tt,
           mkWorld (emotion_queue w2) (conn w2) (rate_limiter w2)
                   (Some (log2 ++ [status_error exn])%list)
                   (effects w2 ++ [Sleep 1000]))
      end
  end.
Proof.
  intros Hq Hsel Hlog Han Hlog2.
  unfold loop_iteration, try_except.
  rewrite (loop_try_found client now w post_id q content log Hq Hsel Hlog).
  unfold bind at 1. rewrite Han.
  destruct emotions as [d|].
  - rewrite (handle_outcome_scores post_id d et em w2 log2 Hlog2).
    destruct (update_params d) as [[[[h e] s] c]|exn] eqn:Hp; [reflexivity|].
    apply loop_except_logged; [assumption|].
    eapply update_params_not_Empty; eassumption.
  - now rewrite (handle_outcome_retry post_id et em w2 log2 Hlog2).
Qed.

(** C9.  Without a client the scorer returns the neutral fallback, 5.0 in
    each of the four dimensions, tagged [api_error], for every text, at
    every time and in every state, and leaves the state as it is. *)
Theorem analyze_without_client (text : string) (now : datetime) (w : World) :
  analyze_emotion_with_ai json_loads text None now w =
  (Return (Some fallback_neutral, Some "api_error", Some msg_no_client), w) /\
  fallback_neutral !! "happiness" = Some (PyFloat 5) /\
  fallback_neutral !! "excitement" = Some (PyFloat 5) /\
  fallback_neutral !! "satisfaction" = Some (PyFloat 5) /\
  fallback_neutral !! "concern" = Some (PyFloat 5) /\
  size fallback_neutral = 4%nat.
Proof.
  split; [reflexivity|]. vm_compute. repeat split; reflexivity.
Qed.

(** What the limiter says when the scorer asks it decides the outcome of a
    rejected analysis. *)
Lemma analyze_rate_limited (text : string) (c : Client) (now : datetime)
  (w : World) :
  fst (can_request now (rate_limiter w)) = false ->
  analyze_emotion_with_ai json_loads text (Some c) now w =
  (Return (None, Some "rate_limit", Some msg_rate_limit),
   set_rate_limiter (snd (can_request now (rate_limiter w))) w).
Proof.
  intros Hrej. unfold analyze_emotion_with_ai, bind, rate_limiter_can_request.
  destruct (can_request now (rate_limiter w)) as [ok rl]. cbn in Hrej. subst ok.
  reflexivity.
Qed.

(** The service raised: the handler of the scorer turns the exception into
    the neutral fallback. *)
Lemma analyze_service_raises (text : string) (c : Client) (now : datetime)
  (w : World) (e : exception) :
  fst (can_request now (rate_limiter w)) = true ->
  generate_content c MODEL [EMOTION_PROMPT_format text] = Raise e ->
  fst (analyze_emotion_with_ai json_loads text (Some c) now w) =
  Return (Some fallback_neutral, Some "api_error", Some (msg_api_error e)).
Proof.
  intros Hadm Hcall.
  unfold analyze_emotion_with_ai, bind, rate_limiter_can_request.
  destruct (can_request now (rate_limiter w)) as [ok rl]. cbn in Hadm. subst ok.
  cbn [negb]. unfold try_except, analyze_try, bind, call_generate_content.
  destruct (status_append_if_present _ _) as [[[]|e0] w1] eqn:H1.
  - rewrite Hcall. unfold analyze_except, bind, ret.
    destruct (returns_status_append_if_present
                ("❌ API呼び出しエラー: " +:+ exc_str e)
                (add_effect (ApiCall MODEL [EMOTION_PROMPT_format text]) w1))
      as ([] & w3 & ->). reflexivity.
  - exfalso.
    destruct (returns_status_append_if_present
                ("🤖 感情分析実行中: " +:+ py_take 30 text +:+ "...")
                (set_rate_limiter rl w)) as ([] & w3 & H3).
    rewrite H3 in H1. discriminate.
Qed.

(** C8.  The scorer never raises: from every state, for every text, client,
    clock reading and decoder it returns a tuple, so that every failure
    inside it shows in the tuple; and when the call of the service raises,
    the tuple is the neutral fallback tagged [api_error] whose message
    ends in the text of the exception. *)
Theorem analyze_never_raises :
  (forall text client now w,
      exists outcome w',
        analyze_emotion_with_ai json_loads text client now w = (Return outcome, w')) /\
  (forall text c now w e,
      fst (can_request now (rate_limiter w)) = true ->
      generate_content c MODEL [EMOTION_PROMPT_format text] = Raise e ->
      fst (analyze_emotion_with_ai json_loads text (Some c) now w) =
      Return (Some fallback_neutral, Some "api_error",
              Some ("API呼び出しエラー: " +:+ exc_str e))) /\
  update_params fallback_neutral =
  Return (SqlReal 5, SqlReal 5, SqlReal 5, SqlReal 5).
Proof.
  split; [|split].
  - intros text client now w. apply analyze_returns.
  - intros text c now w e. apply analyze_service_raises.
  - vm_compute. reflexivity.
Qed.

(** ** What the scorer makes of a reply *)

Lemma status_append_if_present_eq (msg : string) (w : World) :
  status_append_if_present msg w =
  (Return tt, snd (status_append_if_present msg w)).
Proof.
  unfold status_append_if_present. destruct (debug_status w); reflexivity.
Qed.

Lemma log_reply_if_present_text (s : string) (w : World) :
  log_reply_if_present (Some s) w =
  (Return tt, snd (log_reply_if_present (Some s) w)).
Proof.
  unfold log_reply_if_present. destruct (debug_status w); [|reflexivity].
  unfold bind, lift, slice_to. now rewrite status_append_if_present_eq.
Qed.

(** The [try] block on a reply with a text: the first brace-delimited
    match is decoded; without a match the answer is the parse fallback. *)
Lemma analyze_try_text (text : string) (c : Client) (w : World) (r : Response)
  (s : string) :
  generate_content c MODEL [EMOTION_PROMPT_format text] = Return r ->
  response_text r = Some s ->
  fst (analyze_try json_loads text c w) =
  match re_search s with
  | Some group =>
      match json_loads group with
      | Return d => Return (Some d, None, None)
      | Raise e => Raise e
      end
  | None => Return (Some fallback_parse, Some "parse_error", Some (msg_parse_error s))
  end.
Proof.
  intros Hcall Htext. unfold analyze_try.
  unfold bind at 1. rewrite status_append_if_present_eq.
  unfold bind at 1. unfold call_generate_content. rewrite Hcall, Htext.
  unfold bind at 1. rewrite log_reply_if_present_text.
  unfold bind at 1. unfold lift at 1. cbn [re_search_in].
  destruct (re_search s) as [group|].
  - unfold bind at 1. unfold lift at 1.
    destruct (json_loads group) as [d|e]; [|reflexivity].
    unfold bind. now rewrite status_append_if_present_eq.
  - unfold bind. now rewrite status_append_if_present_eq.
Qed.

Lemma analyze_admitted (text : string) (c : Client) (now : datetime) (w : World) :
  fst (can_request now (rate_limiter w)) = true ->
  analyze_emotion_with_ai json_loads text (Some c) now w =
  try_except (analyze_try json_loads text c) analyze_except
    (set_rate_limiter (snd (can_request now (rate_limiter w))) w).
Proof.
  intros Hadm. unfold analyze_emotion_with_ai, bind, rate_limiter_can_request.
  destruct (can_request now (rate_limiter w)) as [ok rl]. cbn in Hadm. subst ok.
  reflexivity.
Qed.

Lemma analyze_except_eq (e : exception) (w : World) :
  fst (analyze_except e w) =
  Return (Some fallback_neutral, Some "api_error", Some (msg_api_error e)).
Proof.
  unfold analyze_except, bind. now rewrite status_append_if_present_eq.
Qed.

(** The outcome of an admitted analysis whose call returned a text. *)
Lemma analyze_reply (text : string) (c : Client) (now : datetime) (w : World)
  (r : Response) (s : string) :
  fst (can_request now (rate_limiter w)) = true ->
  generate_content c MODEL [EMOTION_PROMPT_format text] = Return r ->
  response_text r = Some s ->
  fst (analyze_emotion_with_ai json_loads text (Some c) now w) =
  match re_search s with
  | Some group =>
      match json_loads group with
      | Return d => Return (Some d, None, None)
      | Raise e => Return (Some fallback_neutral, Some "api_error", Some (msg_api_error e))
      end
  | None => Return (Some fallback_parse, Some "parse_error", Some (msg_parse_error s))
  end.
Proof.
  intros Hadm Hcall Htext. rewrite analyze_admitted by assumption.
  unfold try_except.
  pose proof (analyze_try_text text c
                (set_rate_limiter (snd (can_request now (rate_limiter w))) w)
                r s Hcall Htext) as Htry.
  destruct (analyze_try json_loads text c _) as [[a|e] w1]; cbn [fst] in *.
  - rewrite Htry.
    destruct (re_search s) as [group|]; [|reflexivity].
    destruct (json_loads group); [reflexivity|discriminate].
  - rewrite analyze_except_eq.
    destruct (re_search s) as [group|]; [|discriminate].
    destruct (json_loads group); [discriminate|congruence].
Qed.

(** ** The fate of a popped identifier *)

(** One turn of the loop on an identifier whose unprocessed row is found,
    read off the tuple of the scorer: the turn ends normally; a missing
    score set sends the identifier to the end of the queue and leaves the
    table alone; a score set that supplies the four cells is stored; a
    score set that does not leaves the table alone and the identifier off
    the queue. *)
Lemma loop_iteration_outcome (client : option Client) (now : datetime) (w : World)
  (post_id : Z) (q : list Z) (content : string) (log : list string)
  (emotions : option (gmap string pyval)) (et em : option string) :
  emotion_queue w = post_id :: q ->
  select_unprocessed_content post_id (conn w) = Some content ->
  debug_status w = Some log ->
  fst (analyze_emotion_with_ai json_loads content client now
         (in_flight post_id q content log w)) = Return (emotions, et, em) ->
  fst (loop_iteration json_loads client now w) = Return tt /\
  rate_limiter (snd (loop_iteration json_loads client now w)) =
  rate_limiter (snd (analyze_emotion_with_ai json_loads content client now
                       (in_flight post_id q content log w))) /\
  match emotions with
  | None =>
      emotion_queue (snd (loop_iteration json_loads client now w)) = (q ++ [post_id])%list /\
      conn (snd (loop_iteration json_loads client now w)) = conn w /\
      effects (snd (loop_iteration json_loads client now w)) =
      (effects (snd (analyze_emotion_with_ai json_loads content client now
                       (in_flight post_id q content log w))) ++ [Sleep 5000])%list
  | Some d =>
      emotion_queue (snd (loop_iteration json_loads client now w)) = q /\
      match update_params d with
      | Return (h, e, s, c) =>
          conn (snd (loop_iteration json_loads client now w)) =
          update_post post_id h e s c et em (conn w)
      | Raise exn =>
          conn (snd (loop_iteration json_loads client now w)) = conn w /\
          exists log2,
            debug_status (snd (loop_iteration json_loads client now w)) =
            Some (log2 ++ [status_error exn])%list
      end
  end.
Proof.
  intros Hq Hsel Hlog Han.
  destruct (frame_in_flight content client now w post_id q content log)
    as (Hq2 & Hc2 & log2 & Hlog2).
  set (a := analyze_emotion_with_ai json_loads content client now
              (in_flight post_id q content log w)) in *.
  assert (Ha : a = (Return (emotions, et, em), snd a))
    by (rewrite <- Han; apply surjective_pairing).
  rewrite (loop_iteration_found client now w post_id q content log log2
             emotions et em (snd a) Hq Hsel Hlog Ha Hlog2).
  destruct emotions as [d|].
  - destruct (update_params d) as [[[[h e] s] c]|exn]; cbn;
      rewrite ?Hq2, ?Hc2; eauto 6.
  - cbn. rewrite Hq2, Hc2. auto.
Qed.

(** C4.  An analysis the limiter rejects: the scorer returns
    [(None, rate_limit, message)] and adds no call of the service to the
    effects; the worker then puts the same identifier at the end of the
    queue, ends the turn with the pause of five seconds, and leaves the
    table as it was, so that the row is still found unprocessed. *)
Theorem rate_limited_requeued (c : Client) (now : datetime) (w : World)
  (post_id : Z) (q : list Z) (content : string) (log : list string) :
  emotion_queue w = post_id :: q ->
  select_unprocessed_content post_id (conn w) = Some content ->
  debug_status w = Some log ->
  fst (can_request now (rate_limiter w)) = false ->
  (forall text w0,
      rate_limiter w0 = rate_limiter w ->
      fst (analyze_emotion_with_ai json_loads text (Some c) now w0) =
      Return (None, Some "rate_limit", Some msg_rate_limit) /\
      effects (snd (analyze_emotion_with_ai json_loads text (Some c) now w0)) =
      effects w0) /\
  fst (loop_iteration json_loads (Some c) now w) = Return tt /\
  emotion_queue (snd (loop_iteration json_loads (Some c) now w)) = (q ++ [post_id])%list /\
  conn (snd (loop_iteration json_loads (Some c) now w)) = conn w /\
  select_unprocessed_content post_id
    (conn (snd (loop_iteration json_loads (Some c) now w))) = Some content /\
  effects (snd (loop_iteration json_loads (Some c) now w)) =
  (effects w ++ [Sleep 5000])%list.
Proof.
  intros Hq Hsel Hlog Hrej.
  assert (Hscorer : forall text w0,
             rate_limiter w0 = rate_limiter w ->
             analyze_emotion_with_ai json_loads text (Some c) now w0 =
             (Return (None, Some "rate_limit", Some msg_rate_limit),
              set_rate_limiter (snd (can_request now (rate_limiter w0))) w0)).
  { intros text w0 Hrl. apply analyze_rate_limited. now rewrite Hrl. }
  split.
  { intros text w0 Hrl. rewrite (Hscorer text w0 Hrl). split; reflexivity. }
  pose proof (Hscorer content (in_flight post_id q content log w) eq_refl) as Hs.
  destruct (loop_iteration_outcome (Some c) now w post_id q content log
              None (Some "rate_limit") (Some msg_rate_limit) Hq Hsel Hlog)
    as (Hret & _ & Hqueue & Hconn & Heff).
  { now rewrite Hs. }
  rewrite Hs in Heff. cbn in Heff.
  repeat split; try assumption. now rewrite Hconn.
Qed.

(** C7.  An identifier for which no unprocessed row exists: the turn ends
    normally with the identifier off the queue and not put back, the table
    and the limiter untouched, the service not called, one line about the
    missing row in the log, and the closing pause of half a second. *)
Theorem missing_row_dropped (client : option Client) (now : datetime) (w : World)
  (post_id : Z) (q : list Z) (log : list string) :
  emotion_queue w = post_id :: q ->
  select_unprocessed_content post_id (conn w) = None ->
  debug_status w = Some log ->
  loop_iteration json_loads client now w =
  (Return tt,
   mkWorld q (conn w) (rate_limiter w)
           (Some ((log ++ [status_processing post_id]) ++ [status_not_found post_id])%list)
           (effects w ++ [Sleep 500])).
Proof.
  intros Hq Hsel Hlog. unfold loop_iteration, try_except.
  now rewrite (loop_try_missing client now w post_id q log Hq Hsel Hlog).
Qed.

Lemma update_params_neutral :
  update_params fallback_neutral = Return (SqlReal 5, SqlReal 5, SqlReal 5, SqlReal 5).
Proof. vm_compute. reflexivity. Qed.

Lemma update_params_parse :
  update_params fallback_parse = Return (SqlReal 6, SqlReal 7, SqlReal 5, SqlReal 3).
Proof. vm_compute. reflexivity. Qed.

(** The cells of the UPDATE are the four values of the score set, each as
    sqlite3 binds it. *)
Lemma update_params_inv (d : gmap string pyval) (h e s c : sqlval) :
  update_params d = Return (h, e, s, c) ->
  exists vh ve vs vc,
    d !! "happiness" = Some vh /\ d !! "excitement" = Some ve /\
    d !! "satisfaction" = Some vs /\ d !! "concern" = Some vc /\
    bind_param vh = Return h /\ bind_param ve = Return e /\
    bind_param vs = Return s /\ bind_param vc = Return c.
Proof.
  unfold update_params, getitem.
  destruct (d !! "happiness") as [vh|]; [|discriminate].
  destruct (d !! "excitement") as [ve|]; [|discriminate].
  destruct (d !! "satisfaction") as [vs|]; [|discriminate].
  destruct (d !! "concern") as [vc|]; [|discriminate].
  destruct (bind_param vh) as [h'|] eqn:Bh; [|discriminate].
  destruct (bind_param ve) as [e'|] eqn:Be; [|discriminate].
  destruct (bind_param vs) as [s'|] eqn:Bs; [|discriminate].
  destruct (bind_param vc) as [c'|] eqn:Bc; [|discriminate].
  intros [= <- <- <- <-]. exists vh, ve, vs, vc.
  repeat (split; [first [reflexivity|assumption]|]). assumption.
Qed.

(** C10.  Without a client the scorer answers before it would ask the
    limiter: the limiter and the effects are as before the call, the
    outcome carries a score set and the tag [api_error], never
    [rate_limit]; and a turn of the worker without a client stores the
    fallback and does not put the identifier back. *)
Theorem no_client_spares_limiter (text : string) (now : datetime) (w : World) :
  rate_limiter (snd (analyze_emotion_with_ai json_loads text None now w)) =
  rate_limiter w /\
  effects (snd (analyze_emotion_with_ai json_loads text None now w)) = effects w /\
  fst (analyze_emotion_with_ai json_loads text None now w) =
  Return (Some fallback_neutral, Some "api_error", Some msg_no_client) /\
  (forall post_id q content log,
      emotion_queue w = post_id :: q ->
      select_unprocessed_content post_id (conn w) = Some content ->
      debug_status w = Some log ->
      fst (loop_iteration json_loads None now w) = Return tt /\
      emotion_queue (snd (loop_iteration json_loads None now w)) = q /\
      rate_limiter (snd (loop_iteration json_loads None now w)) = rate_limiter w /\
      conn (snd (loop_iteration json_loads None now w)) =
      update_post post_id (SqlReal 5) (SqlReal 5) (SqlReal 5) (SqlReal 5)
                  (Some "api_error") (Some msg_no_client) (conn w)).
Proof.
  split; [reflexivity|]. split; [reflexivity|]. split; [reflexivity|].
  intros post_id q text0 log Hq Hsel Hlog.
  destruct (loop_iteration_outcome None now w post_id q text0 log
              (Some fallback_neutral) (Some "api_error") (Some msg_no_client)
              Hq Hsel Hlog eq_refl) as (Hret & Hrl & Hqueue & Hconn).
  rewrite update_params_neutral in Hconn. auto.
Qed.


(** ** The life of a row *)

(** A turn of the worker either leaves the table alone or writes the row
    of the identifier at the head of the queue, found unprocessed, with a
    score set the scorer returned. *)
Lemma loop_iteration_conn (client : option Client) (now : datetime) (w : World) :
  conn (snd (loop_iteration json_loads client now w)) = conn w \/
  exists post_id q text log d et em h e s c,
    emotion_queue w = post_id :: q /\
    select_unprocessed_content post_id (conn w) = Some text /\
    debug_status w = Some log /\
    fst (analyze_emotion_with_ai json_loads text client now
           (in_flight post_id q text log w)) = Return (Some d, et, em) /\
    update_params d = Return (h, e, s, c) /\
    conn (snd (loop_iteration json_loads client now w)) =
    update_post post_id h e s c et em (conn w).
Proof.
  destruct (emotion_queue w) as [|post_id q] eqn:Hq.
  { left. unfold loop_iteration, try_except.
    now rewrite (loop_try_idle client now w Hq). }
  destruct (debug_status w) as [log|] eqn:Hlog.
  2:{ left. unfold loop_iteration, try_except, loop_try, bind, queue_empty,
        queue_get, status_append.
      unfold loop_except, bind, status_append.
      repeat (first [rewrite Hq | rewrite Hlog]; cbn). reflexivity. }
  destruct (select_unprocessed_content post_id (conn w)) as [text|] eqn:Hsel.
  2:{ left. unfold loop_iteration, try_except.
      now rewrite (loop_try_missing client now w post_id q log Hq Hsel Hlog). }
  destruct (analyze_returns text client now (in_flight post_id q text log w))
    as ([[emotions et] em] & w2 & Han0).
  assert (Han : fst (analyze_emotion_with_ai json_loads text client now
                       (in_flight post_id q text log w)) =
                Return (emotions, et, em)) by now rewrite Han0.
  destruct (loop_iteration_outcome client now w post_id q text log
              emotions et em Hq Hsel Hlog Han) as (_ & _ & Hcases).
  destruct emotions as [d|]; [|left; tauto].
  destruct Hcases as [_ Hcases].
  destruct (update_params d) as [[[[h e] s] c]|exn] eqn:Hp; [|left; tauto].
  right. exists post_id, q, text, log, d, et, em, h, e, s, c. auto 10.
Qed.

Lemma step_conn (ev : event) (w : World) :
  conn (step json_loads ev w) = conn w \/
  (exists text now,
      ev = Submit text now /\
      conn (step json_loads ev w) = snd (insert_post text now (conn w))) \/
  (exists client now post_id q text log d et em h e s c,
      ev = WorkerTurn client now /\
      emotion_queue w = post_id :: q /\
      select_unprocessed_content post_id (conn w) = Some text /\
      debug_status w = Some log /\
      fst (analyze_emotion_with_ai json_loads text client now
             (in_flight post_id q text log w)) = Return (Some d, et, em) /\
      update_params d = Return (h, e, s, c) /\
      conn (step json_loads ev w) = update_post post_id h e s c et em (conn w)).
Proof.
  destruct ev as [text now| |r now|client now]; cbn [step].
  - destruct text as [|ch text]; [left; reflexivity|].
    right. left. exists (String ch text), now. split; reflexivity.
  - left. reflexivity.
  - left. now destruct r.
  - destruct (loop_iteration_conn client now w)
      as [H|(post_id & q & text & log & d & et & em & h & e & s & c & H)];
      [left; assumption|].
    right. right. exists client, now, post_id, q, text, log, d, et, em, h, e, s, c.
    tauto.
Qed.

Lemma select_unprocessed_row (post_id : Z) (d : Database) (text : string) :
  select_unprocessed_content post_id d = Some text ->
  exists p, posts d !! post_id = Some p /\ processed p = false /\ content p = text.
Proof.
  unfold select_unprocessed_content.
  destruct (posts d !! post_id) as [p|]; [|discriminate].
  destruct (processed p) eqn:Hp; [discriminate|].
  intros [= <-]. eauto.
Qed.

Lemma db_wf_step (ev : event) (w : World) :
  db_wf (conn w) -> db_wf (conn (step json_loads ev w)).
Proof.
  intros Hwf.
  destruct (step_conn ev w)
    as [->|[(text & now & _ & ->)
           |(client & now & post_id & q & text & log & d & et & em & h & e & s & c
             & _ & _ & _ & _ & _ & _ & ->)]];
    [assumption| |].
  - intros id p. cbn. rewrite lookup_insert. case_decide; [lia|].
    intros Hp. apply Hwf in Hp. lia.
  - intros id p. cbn. rewrite lookup_alter. case_decide.
    + subst id. destruct (posts (conn w) !! post_id) as [p0|] eqn:Hp0; [|discriminate].
      intros _. eapply Hwf. eassumption.
    + apply Hwf.
Qed.

(** A processed row stays as it is through every step. *)
Lemma processed_row_step (ev : event) (w : World) (id : Z) (p : Post) :
  db_wf (conn w) ->
  posts (conn w) !! id = Some p ->
  processed p = true ->
  posts (conn (step json_loads ev w)) !! id = Some p.
Proof.
  intros Hwf Hp Hdone.
  destruct (step_conn ev w)
    as [->|[(text & now & _ & ->)
           |(client & now & post_id & q & text & log & d & et & em & h & e & s & c
             & _ & _ & Hsel & _ & _ & _ & ->)]];
    [assumption| |].
  - cbn. rewrite lookup_insert_ne; [assumption|].
    apply Hwf in Hp. lia.
  - cbn. rewrite lookup_alter_ne; [assumption|].
    intros ->. apply select_unprocessed_row in Hsel as (p0 & Hp0 & Hun & _).
    congruence.
Qed.

(** Rows that are not processed hold what the INSERT gave them. *)
Lemma unanalysed_step (ev : event) (w : World) :
  (forall id p, posts (conn w) !! id = Some p -> processed p = false -> unanalysed p) ->
  forall id p,
    posts (conn (step json_loads ev w)) !! id = Some p ->
    processed p = false -> unanalysed p.
Proof.
  intros Hinv id p.
  destruct (step_conn ev w)
    as [->|[(text & now & _ & ->)
           |(client & now & post_id & q & text & log & d & et & em & h & e & s & c
             & _ & _ & _ & _ & _ & _ & ->)]];
    [apply Hinv| |].
  - cbn. rewrite lookup_insert. case_decide; [|apply Hinv].
    intros [= <-] _. reflexivity.
  - cbn. rewrite lookup_alter. case_decide; [|apply Hinv].
    destruct (posts (conn w) !! post_id) as [p0|]; [|discriminate].
    cbn. intros [= <-]. discriminate.
Qed.

(** A row turns processed only in a turn of the worker that took its
    identifier off the head of the queue and got a score set from the
    scorer, and the write that sets the flag is the write of the scores. *)
Lemma flip_step (ev : event) (w : World) (id : Z) (p p' : Post) :
  posts (conn w) !! id = Some p ->
  processed p = false ->
  posts (conn (step json_loads ev w)) !! id = Some p' ->
  processed p' = true ->
  exists client now q log d et em h e s c,
    ev = WorkerTurn client now /\
    emotion_queue w = id :: q /\
    debug_status w = Some log /\
    fst (analyze_emotion_with_ai json_loads (content p) client now
           (in_flight id q (content p) log w)) = Return (Some d, et, em) /\
    update_params d = Return (h, e, s, c) /\
    p' = analysed p h e s c et em.
Proof.
  intros Hp Hun Hp' Hdone.
  destruct (step_conn ev w)
    as [Heq|[(text & now & _ & Heq)
            |(client & now & post_id & q & text & log & d & et & em & h & e & s & c
              & Hev & Hq & Hsel & Hlog & Han & Hpar & Heq)]];
    rewrite Heq in Hp'.
  - congruence.
  - cbn in Hp'. rewrite lookup_insert in Hp'. case_decide.
    + injection Hp' as <-. discriminate.
    + congruence.
  - cbn in Hp'. rewrite lookup_alter in Hp'. case_decide; [|congruence].
    subst post_id. rewrite Hp in Hp'. cbn in Hp'. injection Hp' as <-.
    apply select_unprocessed_row in Hsel as (p0 & Hp0 & _ & Hc).
    assert (p0 = p) by congruence. subst p0. subst text.
    exists client, now, q, log, d, et, em, h, e, s, c. auto 10.
Qed.

Lemma run_app (evs1 evs2 : list event) (w : World) :
  run json_loads (evs1 ++ evs2) w = run json_loads evs2 (run json_loads evs1 w).
Proof. unfold run. apply fold_left_app. Qed.

Lemma db_wf_run (evs : list event) :
  forall w, db_wf (conn w) -> db_wf (conn (run json_loads evs w)).
Proof.
  induction evs as [|ev evs IH]; intros w Hwf; [assumption|].
  cbn. apply IH. now apply db_wf_step.
Qed.

Lemma processed_row_run (evs : list event) :
  forall w id p,
    db_wf (conn w) ->
    posts (conn w) !! id = Some p ->
    processed p = true ->
    posts (conn (run json_loads evs w)) !! id = Some p.
Proof.
  induction evs as [|ev evs IH]; intros w id p Hwf Hp Hdone; [assumption|].
  cbn. apply IH; [now apply db_wf_step| |assumption].
  now apply processed_row_step.
Qed.

Lemma unanalysed_run (evs : list event) :
  forall w,
    (forall id p, posts (conn w) !! id = Some p -> processed p = false -> unanalysed p) ->
    forall id p,
      posts (conn (run json_loads evs w)) !! id = Some p ->
      processed p = false -> unanalysed p.
Proof.
  induction evs as [|ev evs IH]; intros w Hinv; [assumption|].
  cbn. apply IH. now apply unanalysed_step.
Qed.

(** C6.  A row is created unprocessed with its four scores at the default
    and no error columns; from the state the script starts in, every row
    that is not processed still holds exactly that; a row turns processed
    only in a turn of the worker on its identifier in which the scorer
    returned a score set, and the row it becomes is written out here
    column by column: content and timestamp as they were, the four scores
    the values of the score set as sqlite3 binds them, the flag true, the
    error columns those of the outcome, all in that one step; and a
    processed row is never written again, so the flag goes from false to
    true at most once and the scores change at most once. *)
Theorem post_lifecycle :
  (forall text now w,
      text <> EmptyString ->
      db_wf (conn w) ->
      posts (conn w) !! (last_rowid (conn w) + 1) = None /\
      posts (conn (submit_post text now w)) !! (last_rowid (conn w) + 1) =
      Some (mkPost text now (SqlReal 0) (SqlReal 0) (SqlReal 0) (SqlReal 0)
                   false None None)) /\
  (forall evs id p,
      posts (conn (run json_loads evs initial_world)) !! id = Some p ->
      processed p = false ->
      p = mkPost (content p) (timestamp p)
                 (SqlReal 0) (SqlReal 0) (SqlReal 0) (SqlReal 0) false None None) /\
  (forall ev w id p p',
      posts (conn w) !! id = Some p ->
      processed p = false ->
      posts (conn (step json_loads ev w)) !! id = Some p' ->
      processed p' = true ->
      exists client now q log d et em vh ve vs vc h e s c,
        ev = WorkerTurn client now /\
        emotion_queue w = id :: q /\
        debug_status w = Some log /\
        fst (analyze_emotion_with_ai json_loads (content p) client now
               (in_flight id q (content p) log w)) = Return (Some d, et, em) /\
        update_params d = Return (h, e, s, c) /\
        d !! "happiness" = Some vh /\ d !! "excitement" = Some ve /\
        d !! "satisfaction" = Some vs /\ d !! "concern" = Some vc /\
        bind_param vh = Return h /\ bind_param ve = Return e /\
        bind_param vs = Return s /\ bind_param vc = Return c /\
        p' = mkPost (content p) (timestamp p) h e s c true et em) /\
  (forall evs w id p,
      db_wf (conn w) ->
      posts (conn w) !! id = Some p ->
      processed p = true ->
      posts (conn (run json_loads evs w)) !! id = Some p).
Proof.
  split; [|split; [|split]].
  - intros text now w Hne Hwf. split.
    + destruct (posts (conn w) !! (last_rowid (conn w) + 1)) as [p|] eqn:Hp;
        [|reflexivity].
      apply Hwf in Hp. lia.
    + destruct text as [|ch text]; [congruence|].
      cbn. apply lookup_insert_eq.
  - intros evs id p Hp Hproc.
    apply (unanalysed_run evs initial_world) with (id := id);
      [|exact Hp|exact Hproc].
    intros id0 p0 Hp0. cbn in Hp0. rewrite lookup_empty in Hp0. discriminate.
  - intros ev w id p p' Hp Hun Hp' Hdone.
    destruct (flip_step ev w id p p' Hp Hun Hp' Hdone)
      as (client & now & q & log & d & et & em & h & e & s & c
          & Hev & Hq & Hlog & Han & Hpar & Hrow).
    destruct (update_params_inv d h e s c Hpar)
      as (vh & ve & vs & vc & Hh & He & Hs & Hc & Bh & Be & Bs & Bc).
    exists client, now, q, log, d, et, em, vh, ve, vs, vc, h, e, s, c.
    repeat (split; [assumption|]). exact Hrow.
  - intros evs w id p. apply processed_row_run.
Qed.

(** ** What is stored for a reply that cannot be read *)

(** A reply in which the pattern finds no object, on an admitted call: the
    scorer returns the parse fallback with the type [parse_error], and
    the turn writes the row of the post: content and timestamp as they
    were, the scores 6, 7, 5 and 3, the flag true, the type
    [parse_error] and the message that quotes the reply; no other row
    changes. *)
Lemma no_json_object_stored (c : Client) (now : datetime) (w : World)
  (post_id : Z) (q : list Z) (text : string) (log : list string)
  (r : Response) (s : string) :
  emotion_queue w = post_id :: q ->
  select_unprocessed_content post_id (conn w) = Some text ->
  debug_status w = Some log ->
  fst (can_request now (rate_limiter w)) = true ->
  generate_content c MODEL [EMOTION_PROMPT_format text] = Return r ->
  response_text r = Some s ->
  re_search s = None ->
  fst (analyze_emotion_with_ai json_loads text (Some c) now
         (in_flight post_id q text log w)) =
  Return (Some fallback_parse, Some "parse_error", Some (msg_parse_error s)) /\
  conn (snd (loop_iteration json_loads (Some c) now w)) =
  update_post post_id (SqlReal 6) (SqlReal 7) (SqlReal 5) (SqlReal 3)
              (Some "parse_error") (Some (msg_parse_error s)) (conn w) /\
  exists p,
    posts (conn w) !! post_id = Some p /\
    processed p = false /\
    posts (conn (snd (loop_iteration json_loads (Some c) now w))) !! post_id =
    Some (mkPost text (timestamp p)
                 (SqlReal 6) (SqlReal 7) (SqlReal 5) (SqlReal 3)
                 true (Some "parse_error") (Some (msg_parse_error s))) /\
    forall id, id <> post_id ->
      posts (conn (snd (loop_iteration json_loads (Some c) now w))) !! id =
      posts (conn w) !! id.
Proof.
  intros Hq Hsel Hlog Hadm Hcall Htext Hnone.
  pose proof (analyze_reply text c now (in_flight post_id q text log w) r s
                Hadm Hcall Htext) as Han.
  rewrite Hnone in Han. split; [assumption|].
  destruct (loop_iteration_outcome (Some c) now w post_id q text log _ _ _
              Hq Hsel Hlog Han) as (_ & _ & _ & Hconn).
  rewrite update_params_parse in Hconn. split; [exact Hconn|].
  destruct (select_unprocessed_row post_id (conn w) text Hsel)
    as (p & Hp & Hproc & Hcontent).
  exists p. split; [exact Hp|]. split; [exact Hproc|].
  rewrite Hconn. cbn [posts update_post]. split.
  - rewrite lookup_alter_eq, Hp. cbn. unfold analysed. now rewrite Hcontent.
  - intros id Hne. apply lookup_alter_ne. congruence.
Qed.

(** A reply whose first brace-delimited match the decoder refuses: the
    exception of the decoder is caught by the handler of the scorer, and
    the outcome is the neutral fallback tagged [api_error]; that is what
    the worker stores. *)
Lemma undecodable_object_stored (c : Client) (now : datetime) (w : World)
  (post_id : Z) (q : list Z) (text : string) (log : list string)
  (r : Response) (s group : string) (e : exception) :
  emotion_queue w = post_id :: q ->
  select_unprocessed_content post_id (conn w) = Some text ->
  debug_status w = Some log ->
  fst (can_request now (rate_limiter w)) = true ->
  generate_content c MODEL [EMOTION_PROMPT_format text] = Return r ->
  response_text r = Some s ->
  re_search s = Some group ->
  json_loads group = Raise e ->
  fst (analyze_emotion_with_ai json_loads text (Some c) now
         (in_flight post_id q text log w)) =
  Return (Some fallback_neutral, Some "api_error", Some (msg_api_error e)) /\
  conn (snd (loop_iteration json_loads (Some c) now w)) =
  update_post post_id (SqlReal 5) (SqlReal 5) (SqlReal 5) (SqlReal 5)
              (Some "api_error") (Some (msg_api_error e)) (conn w).
Proof.
  intros Hq Hsel Hlog Hadm Hcall Htext Hgroup Hloads.
  pose proof (analyze_reply text c now (in_flight post_id q text log w) r s
                Hadm Hcall Htext) as Han.
  rewrite Hgroup, Hloads in Han. split; [assumption|].
  destruct (loop_iteration_outcome (Some c) now w post_id q text log _ _ _
              Hq Hsel Hlog Han) as (_ & _ & _ & Hconn).
  now rewrite update_params_neutral in Hconn.
Qed.

(** ** The worker keeps running *)

(** With the log in place a turn of the loop ends normally, whatever the
    queue, the table, the client, the clock and the decoder hold, and the
    log is still in place afterwards. *)
Lemma loop_iteration_returns (client : option Client) (now : datetime)
  (w : World) (log : list string) :
  debug_status w = Some log ->
  fst (loop_iteration json_loads client now w) = Return tt /\
  exists log', debug_status (snd (loop_iteration json_loads client now w)) = Some log'.
Proof.
  intros Hlog.
  destruct (emotion_queue w) as [|post_id q] eqn:Hq.
  { unfold loop_iteration, try_except.
    rewrite (loop_try_idle client now w Hq). cbn. eauto. }
  destruct (select_unprocessed_content post_id (conn w)) as [text|] eqn:Hsel.
  2:{ unfold loop_iteration, try_except.
      rewrite (loop_try_missing client now w post_id q log Hq Hsel Hlog).
      cbn. eauto. }
  destruct (analyze_returns text client now (in_flight post_id q text log w))
    as ([[emotions et] em] & w2 & Han).
  destruct (frame_in_flight text client now w post_id q text log)
    as (_ & _ & log2 & Hlog2).
  rewrite Han in Hlog2. cbn [snd] in Hlog2.
  rewrite (loop_iteration_found client now w post_id q text log log2
             emotions et em w2 Hq Hsel Hlog Han Hlog2).
  destruct emotions as [d|]; [|cbn; eauto].
  destruct (update_params d) as [[[[h e] s] c]|exn]; cbn; eauto.
Qed.

Lemma step_keeps_log (ev : event) (w : World) :
  is_Some (debug_status w) -> is_Some (debug_status (step json_loads ev w)).
Proof.
  intros [log Hlog].
  destruct ev as [text now| |r now|client now]; cbn [step].
  - destruct text; cbn; rewrite Hlog; eauto.
  - cbn. rewrite Hlog. eauto.
  - destruct r; cbn; rewrite Hlog; eauto.
  - destruct (loop_iteration_returns client now w log Hlog) as (_ & log' & ->).
    eauto.
Qed.

Lemma run_keeps_log (evs : list event) :
  forall w, is_Some (debug_status w) ->
            is_Some (debug_status (run json_loads evs w)).
Proof.
  induction evs as [|ev evs IH]; intros w Hw; [assumption|].
  cbn. apply IH. now apply step_keeps_log.
Qed.

(** The statements before the loop put the log in place. *)
Lemma process_emotion_queue_start_log (w : World) :
  fst (process_emotion_queue_start w) = Return tt /\
  is_Some (debug_status (snd (process_emotion_queue_start w))).
Proof.
  unfold process_emotion_queue_start, status_append.
  destruct (debug_status w) as [log|] eqn:Hlog; cbn; rewrite ?Hlog; cbn; eauto.
Qed.

(** Whatever has happened since the script started, the next turn of the
    worker ends normally: no exception leaves the loop. *)
Theorem worker_never_stops (evs : list event) (client : option Client)
  (now : datetime) :
  fst (loop_iteration json_loads client now (run json_loads evs initial_world)) =
  Return tt.
Proof.
  destruct (run_keeps_log evs initial_world) as [log Hlog]; [cbn; eauto|].
  now destruct (loop_iteration_returns client now _ log Hlog).
Qed.

End PipelineProperties.

(** * The pipeline at work *)

Section Examples.


(** C5, evaluated where the code leaves it.  The reply holds a
    brace-delimited object that is not JSON (its key is not quoted).  The
    pattern finds it, the decoder refuses it, the exception is caught by
    the handler meant for a failed call, and the outcome is the neutral
    fallback (5.0 four times) tagged [api_error], not the parse fallback
    tagged [parse_error]; this is what the worker then stores in row 1. *)
Theorem undecodable_object_is_api_error :
  let reply := "scores: {happiness: 8}" in
  let c := client_replying reply in
  let turn := loop_iteration json_loads_flat (Some c) (seconds 1) one_post_world in
  re_search reply = Some "{happiness: 8}" /\
  (exists e, json_loads_flat "{happiness: 8}" = Raise e /\
             fst (analyze_emotion_with_ai json_loads_flat a_post (Some c) (seconds 1)
                    one_post_world) =
             Return (Some fallback_neutral, Some "api_error", Some (msg_api_error e)) /\
             posts (conn (snd turn)) !! 1 =
             Some (analysed (new_post a_post 0)
                     (SqlReal 5) (SqlReal 5) (SqlReal 5) (SqlReal 5)
                     (Some "api_error") (Some (msg_api_error e)))) /\
  fallback_neutral <> fallback_parse.
Proof.
  split; [vm_compute; reflexivity|]. split.
  - eexists. split; [vm_compute; reflexivity|]. split; vm_compute; reflexivity.
  - intros H. apply (f_equal (fun m => m !! "happiness")) in H.
    vm_compute in H. discriminate.
Qed.


(** C4 at work: the scenario of the specification.  The post is queued, the
    limiter holds fifteen admissions of the last minute, the worker takes
    the identifier thirty seconds after the first of them. *)
Lemma rate_limited_requeued_witness :
  let c := client_replying (json_text "{'happiness': 8}") in
  let w := full_limiter_world in
  fst (can_request (seconds 30) (rate_limiter w)) = false /\
  fst (loop_iteration json_loads_flat (Some c) (seconds 30) w) = Return tt /\
  emotion_queue (snd (loop_iteration json_loads_flat (Some c) (seconds 30) w)) = [1] /\
  select_unprocessed_content 1
    (conn (snd (loop_iteration json_loads_flat (Some c) (seconds 30) w))) = Some a_post /\
  effects (snd (loop_iteration json_loads_flat (Some c) (seconds 30) w)) = [Sleep 5000].
Proof.
  cbv zeta.
  assert (Hrej : fst (can_request (seconds 30) (rate_limiter full_limiter_world)) = false)
    by (vm_compute; reflexivity).
  split; [exact Hrej|].
  destruct (rate_limited_requeued json_loads_flat
              (client_replying (json_text "{'happiness': 8}"))
              (seconds 30) full_limiter_world 1 [] a_post [])
    as (_ & Hret & Hq & _ & Hsel & Heff);
    [reflexivity|vm_compute; reflexivity|reflexivity|exact Hrej|].
  repeat split; assumption.
Defined.

(** C7 at work: the scenario of the specification, identifier 7 without a
    row. *)
Lemma missing_row_dropped_witness :
  emotion_queue stray_id_world = [7] /\
  select_unprocessed_content 7 (conn stray_id_world) = None /\
  loop_iteration json_loads_flat None 0 stray_id_world =
  (Return tt,
   mkWorld [] (conn stray_id_world) (rate_limiter stray_id_world)
           (Some [status_processing 7; status_not_found 7])
           [Sleep 500]).
Proof.
  split; [reflexivity|]. split; [reflexivity|].
  apply (missing_row_dropped json_loads_flat None 0 stray_id_world 7 [] []);
    reflexivity.
Defined.

(** C8 at work: the service raises, the tuple carries the text of the
    exception. *)
Lemma analyze_never_raises_witness :
  let e := Exception "google.genai.errors.ServerError" "503 UNAVAILABLE" in
  fst (can_request (seconds 1) (rate_limiter one_post_world)) = true /\
  fst (analyze_emotion_with_ai json_loads_flat a_post (Some (client_raising e))
         (seconds 1) one_post_world) =
  Return (Some fallback_neutral, Some "api_error",
          Some "API呼び出しエラー: 503 UNAVAILABLE").
Proof.
  cbv zeta. split; [vm_compute; reflexivity|].
  change (Some "API呼び出しエラー: 503 UNAVAILABLE")
    with (Some ("API呼び出しエラー: " +:+
                exc_str (Exception "google.genai.errors.ServerError" "503 UNAVAILABLE"))).
  apply (proj1 (proj2 (analyze_never_raises json_loads_flat)));
    [vm_compute; reflexivity|reflexivity].
Defined.

(** C10 at work: a turn of the worker without a client, with the limiter
    at full capacity: the fallback is stored all the same, and the limiter
    is as before. *)
Lemma no_client_spares_limiter_witness :
  let w := full_limiter_world in
  emotion_queue (snd (loop_iteration json_loads_flat None (seconds 30) w)) = [] /\
  rate_limiter (snd (loop_iteration json_loads_flat None (seconds 30) w)) = rate_limiter w /\
  posts (conn (snd (loop_iteration json_loads_flat None (seconds 30) w))) !! 1 =
  Some (analysed (new_post a_post 0)
          (SqlReal 5) (SqlReal 5) (SqlReal 5) (SqlReal 5)
          (Some "api_error") (Some msg_no_client)).
Proof.
  cbv zeta.
  destruct (proj2 (proj2 (proj2
              (no_client_spares_limiter json_loads_flat a_post (seconds 30)
                 full_limiter_world))) 1 [] a_post [])
    as (_ & Hq & Hrl & Hconn);
    [reflexivity|vm_compute; reflexivity|reflexivity|].
  split; [exact Hq|]. split; [exact Hrl|].
  rewrite Hconn. vm_compute. reflexivity.
Defined.

(** C6 at work: a post is submitted, analysed, queued again by the
    operator and taken again by the worker with another reply: the row
    holds the scores of the first reply, column by column, and keeps
    them. *)
Lemma post_lifecycle_witness :
  let c1 := client_replying
              (json_text "{'happiness': 8, 'excitement': 7, 'satisfaction': 9, 'concern': 2}") in
  let c2 := client_replying
              (json_text "{'happiness': 1, 'excitement': 1, 'satisfaction': 1, 'concern': 1}") in
  let w1 := run json_loads_flat [Submit a_post 0; WorkerTurn (Some c1) (seconds 1)]
              initial_world in
  let later := [Submit "もう一つ" (seconds 2); Preview LaterRun (seconds 2); ForceProcess;
                WorkerTurn (Some c2) (seconds 3); WorkerTurn (Some c2) (seconds 4)] in
  let p := mkPost a_post 0
             (SqlInteger 8) (SqlInteger 7) (SqlInteger 9) (SqlInteger 2)
             true None None in
  posts (conn w1) !! 1 = Some p /\
  posts (conn (run json_loads_flat later w1)) !! 1 = Some p.
Proof.
  cbv zeta.
  assert (H1 : posts (conn (run json_loads_flat
                              [Submit a_post 0;
                               WorkerTurn
                                 (Some (client_replying
                                          (json_text "{'happiness': 8, 'excitement': 7, 'satisfaction': 9, 'concern': 2}")))
                                 (seconds 1)]
                              initial_world)) !! 1 =
               Some (mkPost a_post 0
                       (SqlInteger 8) (SqlInteger 7) (SqlInteger 9) (SqlInteger 2)
                       true None None))
    by (vm_compute; reflexivity).
  split; [exact H1|].
  apply (proj2 (proj2 (proj2 (post_lifecycle json_loads_flat)))).
  - apply db_wf_run. intros id p Hp. cbn in Hp. rewrite lookup_empty in Hp. discriminate.
  - exact H1.
  - reflexivity.
Defined.

(** The bound on admissions at work: seventeen calls, one per second;
    fifteen are admitted, and fifteen lie in the minute before the last
    call. *)
Lemma admissions_window_bound_witness :
  let times := List.map seconds [0; 1; 2; 3; 4; 5; 6; 7; 8; 9; 10; 11; 12; 13; 14; 15; 16] in
  length (admissions times RateLimiter_default) = 15%nat /\
  Z.of_nat (length (List.filter (in_windowb (time_window RateLimiter_default) (seconds 16))
                      (admissions times RateLimiter_default)))
  <= max_requests RateLimiter_default.
Proof.
  cbv zeta. split; [vm_compute; reflexivity|].
  apply (admissions_window_bound (seconds 16)
           (List.map seconds [0; 1; 2; 3; 4; 5; 6; 7; 8; 9; 10; 11; 12; 13; 14; 15; 16])
           RateLimiter_default).
  - cbn [List.map]. unfold seconds, us_per_second.
    repeat (apply SSorted_cons; [|repeat (constructor; [lia|]); constructor]).
    apply SSorted_nil.
  - reflexivity.
  - cbn. lia.
Defined.

(** The contract of [can_request] at work: the limiter after the burst,
    asked thirty seconds after its first admission, holds fifteen
    admissions of the window and rejects. *)
Lemma can_request_fresh_witness :
  let rl := after_calls burst RateLimiter_default in
  fresh (seconds 30) rl /\
  admitted_in_window (seconds 30) rl = 15 /\
  fst (can_request (seconds 30) rl) = false.
Proof.
  cbv zeta.
  assert (Hf : fresh (seconds 30) (after_calls burst RateLimiter_default)).
  { apply freshb_fresh. vm_compute. reflexivity. }
  split; [exact Hf|]. split; [vm_compute; reflexivity|].
  rewrite (proj1 (can_request_fresh (seconds 30)
                    (after_calls burst RateLimiter_default) Hf)).
  vm_compute. reflexivity.
Defined.

(** A rejection at work: the limiter after the burst is the same limiter
    after a rejected call. *)
Lemma can_request_reject_unchanged_witness :
  let rl := after_calls burst RateLimiter_default in
  Z.of_nat (length (requests rl)) <= max_requests rl /\
  fst (can_request (seconds 30) rl) = false /\
  snd (can_request (seconds 30) rl) = rl.
Proof.
  cbv zeta.
  assert (H1 : Z.of_nat (length (requests (after_calls burst RateLimiter_default)))
               <= max_requests (after_calls burst RateLimiter_default))
    by (vm_compute; discriminate).
  assert (H2 : fst (can_request (seconds 30) (after_calls burst RateLimiter_default))
               = false) by (vm_compute; reflexivity).
  split; [exact H1|]. split; [exact H2|].
  exact (can_request_reject_unchanged (seconds 30)
           (after_calls burst RateLimiter_default) H1 H2).
Defined.

(** A reply without an object at work: the row of the post after the
    turn, column by column. *)
Lemma no_json_object_stored_witness :
  let reply := "すみません、分析できませんでした。" in
  let turn := loop_iteration json_loads_flat (Some (client_replying reply))
                (seconds 1) one_post_world in
  re_search reply = None /\
  posts (conn (snd turn)) !! 1 =
  Some (mkPost a_post 0
          (SqlReal 6) (SqlReal 7) (SqlReal 5) (SqlReal 3)
          true (Some "parse_error")
          (Some "AIの応答解析に失敗しました。推定値を使用: すみません、分析できませんでした。...")).
Proof.
  cbv zeta.
  assert (Hnone : re_search "すみません、分析できませんでした。" = None)
    by (vm_compute; reflexivity).
  split; [exact Hnone|].
  assert (Hrow : posts (conn one_post_world) !! 1 = Some (new_post a_post 0))
    by (vm_compute; reflexivity).
  destruct (no_json_object_stored json_loads_flat
              (client_replying "すみません、分析できませんでした。")
              (seconds 1) one_post_world 1 [] a_post []
              (mkResponse (Some "すみません、分析できませんでした。"))
              "すみません、分析できませんでした。")
    as (_ & _ & p & Hp & _ & Hstored & _);
    [vm_compute; reflexivity|vm_compute; reflexivity|vm_compute; reflexivity
    |vm_compute; reflexivity|reflexivity|reflexivity|exact Hnone|].
  rewrite Hstored.
  replace p with (new_post a_post 0) by congruence.
  vm_compute. reflexivity.
Defined.

End Examples.

(** * More on the rate limiter *)

Section RateLimiterMore.

Lemma td_seconds_range (d : timedelta) : 0 <= td_seconds d < seconds_per_day.
Proof.
  unfold td_seconds.
  pose proof (Z.mod_pos_bound d us_per_day us_per_day_pos) as Hm.
  split.
  - apply Z.div_pos; [lia|apply us_per_second_pos].
  - apply Z.div_lt_upper_bound; [apply us_per_second_pos|].
    unfold us_per_day, seconds_per_day, us_per_second in *. lia.
Qed.

(** [wait_time] is never negative and never more than the window, whatever
    the recorded timestamps and the clock are. *)
Theorem wait_time_bounds (now : datetime) (rl : RateLimiter) :
  0 <= wait_time now rl <= Z.max 0 (time_window rl).
Proof.
  unfold wait_time. destruct (requests rl) as [|r rs]; [lia|].
  pose proof (td_seconds_range (now - list_min r rs)). lia.
Qed.

Lemma list_min_Forall (P : datetime -> Prop) (r : datetime) (rs : list datetime) :
  Forall P (r :: rs) -> P (list_min r rs).
Proof.
  intros H. rewrite List.Forall_forall in H. apply H. apply list_min_In.
Qed.

Lemma prune_Forall (now : datetime) (rl : RateLimiter) :
  Forall (fun t => td_seconds (now - t) < time_window rl) (prune now rl).
Proof.
  unfold prune. apply List.Forall_forall. intros t Ht.
  apply filter_In in Ht as [_ Ht]. now apply Z.ltb_lt in Ht.
Qed.

(** The callers ask [wait_time] only after [can_request] has said no.  At
    the clock reading of that refusal, with a positive [max_requests], the
    answer is at least one second and at most the window. *)
Theorem wait_time_after_rejection (now : datetime) (rl : RateLimiter) :
  0 < max_requests rl ->
  fst (can_request now rl) = false ->
  1 <= wait_time now (snd (can_request now rl)) <= time_window rl.
Proof.
  intros Hmax. unfold can_request.
  destruct (Z.ltb_spec (Z.of_nat (length (prune now rl))) (max_requests rl)) as [H|H];
    cbn [fst snd]; [discriminate|intros _].
  pose proof (prune_Forall now rl) as Hall.
  unfold wait_time. cbn [requests set_requests].
  destruct (prune now rl) as [|r rs]; [cbn in H; lia|].
  apply list_min_Forall in Hall. cbn [time_window set_requests].
  pose proof (td_seconds_range (now - list_min r rs)). lia.
Qed.

(** After the burst, thirty seconds after its first call: the call is
    refused and the wait is thirty seconds. *)
Lemma wait_time_after_rejection_witness :
  let rl := after_calls burst RateLimiter_default in
  0 < max_requests rl /\
  fst (can_request (seconds 30) rl) = false /\
  wait_time (seconds 30) (snd (can_request (seconds 30) rl)) = 30 /\
  1 <= wait_time (seconds 30) (snd (can_request (seconds 30) rl)) <= time_window rl.
Proof.
  cbv zeta.
  assert (H1 : 0 < max_requests (after_calls burst RateLimiter_default))
    by (vm_compute; reflexivity).
  assert (H2 : fst (can_request (seconds 30) (after_calls burst RateLimiter_default))
               = false) by (vm_compute; reflexivity).
  split; [exact H1|]. split; [exact H2|]. split; [vm_compute; reflexivity|].
  exact (wait_time_after_rejection (seconds 30)
           (after_calls burst RateLimiter_default) H1 H2).
Defined.

End RateLimiterMore.

(** * Slices *)

Section SliceFacts.

Lemma py_len_app (a b : string) : py_len (a +:+ b) = (py_len a + py_len b)%nat.
Proof.
  induction a as [|c a IH]; [reflexivity|].
  change (String c a +:+ b) with (String c (a +:+ b)).
  cbn [py_len]. rewrite IH. lia.
Qed.

Lemma py_take_facts (n : nat) (s : string) :
  (exists rest,
      s = py_take n s +:+ rest /\
      match rest with
      | String c _ => is_continuation c = false
      | EmptyString => True
      end) /\
  py_len (py_take n s) = Nat.min n (py_len s) /\
  ((py_len s <= n)%nat -> py_take n s = s).
Proof.
  revert n. induction s as [|c s IH]; intros n.
  - cbn. split; [exists EmptyString; auto|]. split; [lia|reflexivity].
  - cbn [py_take py_len]. destruct (is_continuation c) eqn:Hc.
    + destruct (IH n) as ((rest & Hs & Hrest) & Hlen & Hid).
      split; [|split].
      * exists rest. split; [|exact Hrest].
        change (String c (py_take n s) +:+ rest)
          with (String c (py_take n s +:+ rest)).
        now rewrite <- Hs.
      * cbn [py_len]. rewrite Hc, Hlen. reflexivity.
      * intros Hle. f_equal. apply Hid. lia.
    + destruct n as [|n].
      * split; [exists (String c s); auto|]. split; [reflexivity|lia].
      * destruct (IH n) as ((rest & Hs & Hrest) & Hlen & Hid).
        split; [|split].
        -- exists rest. split; [|exact Hrest].
           change (String c (py_take n s) +:+ rest)
             with (String c (py_take n s +:+ rest)).
           now rewrite <- Hs.
        -- cbn [py_len]. rewrite Hc, Hlen. lia.
        -- intros Hle. f_equal. apply Hid. lia.
Qed.

(** A slice [s[:n]] is a prefix of [s], has [n] code points or all of them
    when [s] has fewer, never ends inside the encoding of a code point
    (what follows it does not begin with a continuation byte), and is [s]
    itself when [s] has at most [n] code points. *)
Theorem py_take_spec (n : nat) (s : string) :
  (exists rest,
      s = py_take n s +:+ rest /\
      match rest with
      | String c _ => is_continuation c = false
      | EmptyString => True
      end) /\
  py_len (py_take n s) = Nat.min n (py_len s) /\
  ((py_len s <= n)%nat -> py_take n s = s).
Proof. apply py_take_facts. Qed.

(** The heading of a post is its content when that has at most a hundred
    characters; otherwise it is the first hundred followed by three dots.
    It never has more than 103 characters. *)
Theorem post_title_spec (content : string) :
  ((py_len content <= 100)%nat -> post_title content = content) /\
  ((100 < py_len content)%nat ->
   post_title content = py_take 100 content +:+ "..." /\
   py_len (post_title content) = 103%nat) /\
  (py_len (post_title content) <= 103)%nat.
Proof.
  unfold post_title.
  destruct (py_take_facts 100 content) as (_ & Hlen & Hid).
  assert (Hdots : py_len "..." = 3%nat) by reflexivity.
  assert (Hnil : forall s : string, s +:+ "" = s).
  { induction s as [|c s IH]; [reflexivity|].
    change (String c s +:+ "") with (String c (s +:+ "")). now rewrite IH. }
  destruct (Nat.ltb_spec 100 (py_len content)) as [H|H].
  - split; [lia|]. split.
    + intros _. split; [reflexivity|]. rewrite py_len_app, Hlen, Hdots. lia.
    + rewrite py_len_app, Hlen, Hdots. lia.
  - split; [|split].
    + intros _. now rewrite (Hid H), Hnil.
    + lia.
    + rewrite Hnil, Hlen. lia.
Qed.

Lemma post_title_spec_witness :
  (py_len a_post <= 100)%nat /\ post_title a_post = a_post.
Proof.
  assert (H : (py_len a_post <= 100)%nat) by (vm_compute; lia).
  split; [exact H|]. exact (proj1 (post_title_spec a_post) H).
Defined.

(** The message stored with a parse error quotes at most fifty characters
    of the reply: it has at most 76 characters however long the reply
    is. *)
Theorem msg_parse_error_length (result_text : string) :
  (py_len (msg_parse_error result_text) <= 76)%nat /\
  ((py_len result_text <= 50)%nat ->
   msg_parse_error result_text =
   "AIの応答解析に失敗しました。推定値を使用: " +:+ result_text +:+ "...").
Proof.
  unfold msg_parse_error.
  destruct (py_take_facts 50 result_text) as (_ & Hlen & Hid). split.
  - rewrite !py_len_app, Hlen.
    change (py_len "AIの応答解析に失敗しました。推定値を使用: ") with 23%nat.
    change (py_len "...") with 3%nat. lia.
  - intros H. now rewrite (Hid H).
Qed.

Lemma msg_parse_error_length_witness :
  (py_len "すみません" <= 50)%nat /\
  msg_parse_error "すみません" = "AIの応答解析に失敗しました。推定値を使用: すみません...".
Proof.
  assert (H : (py_len "すみません" <= 50)%nat) by (vm_compute; lia).
  split; [exact H|]. exact (proj2 (msg_parse_error_length "すみません") H).
Defined.

End SliceFacts.

(** * The service is called only on admission *)

Section ServiceCalls.

Variable json_loads : string -> result (gmap string pyval).

#[local] Instance log_only_preorder : PreOrder log_only.
Proof.
  split.
  - intros w. unfold log_only. auto.
  - intros w1 w2 w3 (? & ? & ? & ?) (? & ? & ? & ?). unfold log_only.
    repeat split; congruence.
Qed.

Lemma log_only_status_append_if_present (msg : string) :
  keeps log_only (status_append_if_present msg).
Proof.
  intros w. unfold status_append_if_present.
  destruct (debug_status w); cbn; [|reflexivity].
  unfold log_only. cbn. auto.
Qed.

Lemma log_only_log_reply_if_present (result_text : option string) :
  keeps log_only (log_reply_if_present result_text).
Proof.
  intros w. unfold log_only, log_reply_if_present, bind, lift, slice_to,
    status_append_if_present.
  destruct (debug_status w) eqn:Hlog; cbn; [|auto].
  destruct result_text; cbn; rewrite ?Hlog; cbn; auto.
Qed.

Lemma log_only_analyze_except (e : exception) : keeps log_only (analyze_except e).
Proof.
  unfold analyze_except.
  apply keeps_bind; [typeclasses eauto|apply log_only_status_append_if_present|].
  intros _. apply keeps_ret. typeclasses eauto.
Qed.

(** What the [try] block does after the call of the service. *)
Lemma log_only_after_call (response : Response) :
  keeps log_only
    (bind (log_reply_if_present (response_text response))
       (fun _ =>
          bind (lift (re_search_in (response_text response)))
            (fun found =>
               let (json_match, result_str) := found in
               match json_match with
               | Some group =>
                   bind (lift (json_loads group))
                     (fun emotions =>
                        bind (status_append_if_present "✅ 感情分析完了")
                          (fun _ => ret (Some emotions, None, None)))
               | None =>
                   bind (status_append_if_present ("⚠️ JSON解析失敗: " +:+ result_str))
                     (fun _ =>
                        ret (Some fallback_parse, Some "parse_error",
                             Some (msg_parse_error result_str)))
               end))).
Proof.
  apply keeps_bind; [typeclasses eauto|apply log_only_log_reply_if_present|].
  intros _. apply keeps_bind; [typeclasses eauto|apply keeps_lift; typeclasses eauto|].
  intros [[group|] result_str].
  - apply keeps_bind; [typeclasses eauto|apply keeps_lift; typeclasses eauto|].
    intros emotions.
    apply keeps_bind; [typeclasses eauto|apply log_only_status_append_if_present|].
    intros _. apply keeps_ret. typeclasses eauto.
  - apply keeps_bind; [typeclasses eauto|apply log_only_status_append_if_present|].
    intros _. apply keeps_ret. typeclasses eauto.
Qed.

(** The [try] block calls the service once, whatever comes of the call,
    and leaves the queue, the table and the limiter alone. *)
Lemma analyze_try_effects (text : string) (c : Client) (w : World) :
  emotion_queue (snd (analyze_try json_loads text c w)) = emotion_queue w /\
  conn (snd (analyze_try json_loads text c w)) = conn w /\
  rate_limiter (snd (analyze_try json_loads text c w)) = rate_limiter w /\
  effects (snd (analyze_try json_loads text c w)) =
  (effects w ++ [ApiCall MODEL [EMOTION_PROMPT_format text]])%list.
Proof.
  pose proof (log_only_status_append_if_present
                ("🤖 感情分析実行中: " +:+ py_take 30 text +:+ "...") w)
    as (Hq1 & Hc1 & Hr1 & He1).
  destruct (analyze_try json_loads text c w) as [r w'] eqn:Ha. cbn [snd].
  unfold analyze_try in Ha. unfold bind at 1 in Ha.
  rewrite status_append_if_present_eq in Ha.
  set (w1 := snd (status_append_if_present _ w)) in *.
  unfold bind at 1 in Ha. unfold call_generate_content in Ha.
  destruct (generate_content c MODEL [EMOTION_PROMPT_format text]) as [response|e].
  - pose proof (log_only_after_call response
                  (add_effect (ApiCall MODEL [EMOTION_PROMPT_format text]) w1))
      as H2.
    cbv beta zeta in Ha. rewrite Ha in H2. destruct H2 as (Hq2 & Hc2 & Hr2 & He2).
    cbn in Hq2, Hc2, Hr2, He2.
    rewrite Hq2, Hc2, Hr2, He2, Hq1, Hc1, Hr1, He1. auto.
  - injection Ha as _ <-. cbn. rewrite Hq1, Hc1, Hr1, He1. auto.
Qed.

Lemma api_calls_app (l1 l2 : list effect) :
  api_calls (l1 ++ l2) = (api_calls l1 + api_calls l2)%nat.
Proof.
  induction l1 as [|[model contents|ms] l1 IH]; cbn; [reflexivity|lia|assumption].
Qed.

(** What the scorer does to the limiter and to the trace of effects. *)
Lemma analyze_effects (text : string) (client : option Client) (now : datetime)
  (w : World) :
  rate_limiter (snd (analyze_emotion_with_ai json_loads text client now w)) =
  match client with
  | Some _ => snd (can_request now (rate_limiter w))
  | None => rate_limiter w
  end /\
  effects (snd (analyze_emotion_with_ai json_loads text client now w)) =
  match client with
  | Some _ =>
      if fst (can_request now (rate_limiter w))
      then (effects w ++ [ApiCall MODEL [EMOTION_PROMPT_format text]])%list
      else effects w
  | None => effects w
  end.
Proof.
  destruct client as [c|]; [|split; reflexivity].
  destruct (fst (can_request now (rate_limiter w))) eqn:Hadm.
  - rewrite analyze_admitted by assumption.
    unfold try_except.
    pose proof (analyze_try_effects text c
                  (set_rate_limiter (snd (can_request now (rate_limiter w))) w))
      as (_ & _ & Hr & He).
    destruct (analyze_try json_loads text c _) as [[a|e] w1]; cbn [snd] in *.
    + split; assumption.
    + pose proof (log_only_analyze_except e w1) as (_ & _ & Hr2 & He2).
      rewrite Hr2, He2. split; assumption.
  - rewrite analyze_rate_limited by assumption. split; reflexivity.
Qed.

(** What a turn of the worker does to the limiter and to the number of
    calls of the service. *)
Lemma loop_iteration_limiter_calls (client : option Client) (now : datetime)
  (w : World) :
  rate_limiter (snd (loop_iteration json_loads client now w)) =
  (if turn_asks_limiter client w
   then snd (can_request now (rate_limiter w))
   else rate_limiter w) /\
  api_calls (effects (snd (loop_iteration json_loads client now w))) =
  (api_calls (effects w) + (if turn_calls_service client now w then 1 else 0))%nat.
Proof.
  unfold turn_calls_service, turn_asks_limiter.
  destruct (emotion_queue w) as [|post_id q] eqn:Hq.
  { unfold loop_iteration, try_except.
    rewrite (loop_try_idle json_loads client now w Hq). cbn.
    rewrite api_calls_app. cbn. split; [reflexivity|lia]. }
  destruct (debug_status w) as [log|] eqn:Hlog.
  2:{ unfold loop_iteration, try_except, loop_try, bind, queue_empty,
        queue_get, status_append.
      unfold loop_except, bind, status_append.
      repeat (first [rewrite Hq | rewrite Hlog]; cbn). split; [reflexivity|lia]. }
  destruct (select_unprocessed_content post_id (conn w)) as [text|] eqn:Hsel.
  2:{ unfold loop_iteration, try_except.
      rewrite (loop_try_missing json_loads client now w post_id q log Hq Hsel Hlog).
      cbn. rewrite api_calls_app. cbn.
      destruct client; cbn; split; try reflexivity; lia. }
  destruct (analyze_returns json_loads text client now
              (in_flight post_id q text log w))
    as ([[emotions et] em] & w2 & Han).
  destruct (frame_in_flight json_loads text client now w post_id q text log)
    as (_ & _ & log2 & Hlog2).
  pose proof (analyze_effects text client now (in_flight post_id q text log w))
    as [Hrl Heff].
  rewrite Han in Hlog2, Hrl, Heff. cbn [snd] in Hlog2, Hrl, Heff.
  cbn [rate_limiter effects in_flight] in Hrl, Heff.
  rewrite (loop_iteration_found json_loads client now w post_id q text log log2
             emotions et em w2 Hq Hsel Hlog Han Hlog2).
  assert (Hcount : api_calls (effects w2) =
                   (api_calls (effects w) +
                    (if match client with
                        | Some _ => true
                        | None => false
                        end && fst (can_request now (rate_limiter w))
                     then 1 else 0))%nat).
  { rewrite Heff. destruct client as [c|]; cbn [andb]; [|lia].
    destruct (fst (can_request now (rate_limiter w)));
      [rewrite api_calls_app; cbn; lia|lia]. }
  assert (Hlim : rate_limiter w2 =
                 (if match client with
                     | Some _ => true
                     | None => false
                     end
                  then snd (can_request now (rate_limiter w))
                  else rate_limiter w)).
  { rewrite Hrl. destruct client; reflexivity. }
  assert (Hsleep : forall ms,
             api_calls (effects w2 ++ [Sleep ms]) = api_calls (effects w2)).
  { intros ms. rewrite api_calls_app. cbn. lia. }
  destruct emotions as [d|];
    [destruct (update_params d) as [[[[h e] s] c]|exn]|];
    cbn [snd rate_limiter effects]; rewrite Hsleep, Hcount, Hlim;
    destruct client; split; reflexivity.
Qed.

(** A turn of the worker adds at most one call of the service to the
    effects, and adds one exactly when it reaches the limiter and the
    limiter admits; and the limiter changes in a turn only by the one
    [can_request] the scorer makes when the worker reaches it. *)
Theorem service_called_on_admission (client : option Client) (now : datetime)
  (w : World) :
  api_calls (effects (snd (loop_iteration json_loads client now w))) =
  (api_calls (effects w) + (if turn_calls_service client now w then 1 else 0))%nat /\
  (turn_calls_service client now w = true ->
   fst (can_request now (rate_limiter w)) = true /\
   requests (rate_limiter (snd (loop_iteration json_loads client now w))) =
   (prune now (rate_limiter w) ++ [now])%list) /\
  (turn_asks_limiter client w = false ->
   rate_limiter (snd (loop_iteration json_loads client now w)) = rate_limiter w).
Proof.
  destruct (loop_iteration_limiter_calls client now w) as [Hrl Hcalls].
  split; [exact Hcalls|]. split.
  - unfold turn_calls_service. intros H. apply andb_prop in H as [Hasks Hadm].
    split; [exact Hadm|]. rewrite Hrl, Hasks.
    unfold can_request in *. destruct (_ <? _); [reflexivity|discriminate].
  - intros Hasks. now rewrite Hrl, Hasks.
Qed.

End ServiceCalls.

(** * The rate of service calls over a run *)

Section ServiceRate.

Variable json_loads : string -> result (gmap string pyval).

Lemma step_limiter (ev : event) (w : World) :
  rate_limiter (step json_loads ev w) =
  match asks_limiter ev w with
  | Some t => snd (can_request t (rate_limiter w))
  | None => rate_limiter w
  end.
Proof.
  destruct ev as [text now| |r now|client now]; cbn [step asks_limiter].
  - destruct text; reflexivity.
  - reflexivity.
  - destruct r; reflexivity.
  - destruct (loop_iteration_limiter_calls json_loads client now w) as [-> _].
    destruct (turn_asks_limiter client w); reflexivity.
Qed.

Lemma step_api_calls (ev : event) (w : World) :
  api_calls (effects (step json_loads ev w)) =
  (api_calls (effects w) +
   match ev with
   | WorkerTurn client now => if turn_calls_service client now w then 1 else 0
   | _ => 0
   end)%nat.
Proof.
  destruct ev as [text now| |r now|client now]; cbn [step].
  - destruct text; cbn; lia.
  - cbn. lia.
  - destruct r; cbn; lia.
  - now destruct (loop_iteration_limiter_calls json_loads client now w) as [_ ->].
Qed.

(** Every call of the service in a run is an admission of the limiter. *)
Lemma service_calls_admitted (evs : list event) :
  forall w,
    sublist (service_call_times json_loads evs w)
            (admissions (limiter_readings json_loads evs w) (rate_limiter w)).
Proof.
  induction evs as [|ev evs IH]; intros w; [constructor|].
  cbn [service_call_times limiter_readings].
  specialize (IH (step json_loads ev w)). rewrite step_limiter in IH.
  destruct ev as [text now| |r now|client now]; cbn [asks_limiter] in *.
  - exact IH.
  - exact IH.
  - destruct r; cbn [app admissions] in *; [|exact IH].
    destruct (can_request now (rate_limiter w)) as [ok rl'].
    apply sublist_inserts_l. exact IH.
  - unfold turn_calls_service.
    destruct (turn_asks_limiter client w); cbn [andb app admissions] in *;
      [|exact IH].
    destruct (can_request now (rate_limiter w)) as [ok rl']. cbn [fst snd] in *.
    apply sublist_app; [reflexivity|exact IH].
Qed.

Lemma limiter_readings_sublist (evs : list event) :
  forall w, sublist (limiter_readings json_loads evs w) (omap event_reading evs).
Proof.
  induction evs as [|ev evs IH]; intros w; [constructor|].
  cbn [limiter_readings omap list_omap].
  specialize (IH (step json_loads ev w)).
  destruct ev as [text now| |r now|client now]; cbn [asks_limiter event_reading].
  - exact IH.
  - exact IH.
  - destruct r; [apply sublist_skip|]; exact IH.
  - destruct (turn_asks_limiter client w); cbn [app];
      [apply sublist_skip|apply sublist_cons]; exact IH.
Qed.

Lemma sublist_In {A} (l1 l2 : list A) :
  sublist l1 l2 -> forall x, In x l1 -> In x l2.
Proof.
  induction 1 as [|y l1 l2 Hsub IH|y l1 l2 Hsub IH]; intros x Hx.
  - exact Hx.
  - destruct Hx as [->|Hx]; [now left|right; auto].
  - right. auto.
Qed.

Lemma sublist_StronglySorted {A} (R : A -> A -> Prop) (l1 l2 : list A) :
  sublist l1 l2 -> StronglySorted R l2 -> StronglySorted R l1.
Proof.
  induction 1 as [|x l1 l2 Hsub IH|x l1 l2 Hsub IH]; intros Hs.
  - constructor.
  - apply StronglySorted_inv in Hs as [Hs Hall]. constructor; [auto|].
    apply List.Forall_forall. intros y Hy.
    rewrite List.Forall_forall in Hall. apply Hall.
    eapply sublist_In; eassumption.
  - apply StronglySorted_inv in Hs as [Hs _]. auto.
Qed.

Lemma sublist_filter_length {A} (f : A -> bool) (l1 l2 : list A) :
  sublist l1 l2 ->
  (length (List.filter f l1) <= length (List.filter f l2))%nat.
Proof.
  induction 1 as [|x l1 l2 Hsub IH|x l1 l2 Hsub IH]; cbn [List.filter].
  - lia.
  - destruct (f x); cbn [length]; lia.
  - destruct (f x); cbn [length]; lia.
Qed.

(** From a state whose limiter has recorded nothing, over every run whose
    readings of the clock at the limiter of the worker never decrease:
    the calls of the service that fall within any trailing window number
    at most [max_requests], and the trace of effects holds one call per
    such reading. *)
Theorem service_rate_bound (evs : list event) (w : World) (T : datetime) :
  StronglySorted Z.le (omap event_reading evs) ->
  requests (rate_limiter w) = [] ->
  0 <= max_requests (rate_limiter w) ->
  Z.of_nat (length (List.filter (in_windowb (time_window (rate_limiter w)) T)
                      (service_call_times json_loads evs w)))
  <= max_requests (rate_limiter w) /\
  api_calls (effects (run json_loads evs w)) =
  (api_calls (effects w) + length (service_call_times json_loads evs w))%nat.
Proof.
  intros Hsorted Hempty Hmax. split.
  - pose proof (admissions_window_bound_from T
                  (limiter_readings json_loads evs w) (rate_limiter w)) as Hb.
    rewrite Hempty in Hb. cbn [app length] in Hb.
    pose proof (sublist_filter_length
                  (in_windowb (time_window (rate_limiter w)) T) _ _
                  (service_calls_admitted evs w)) as Hle.
    assert (Hadm : Z.of_nat
                     (length (List.filter (in_windowb (time_window (rate_limiter w)) T)
                                (admissions (limiter_readings json_loads evs w)
                                   (rate_limiter w))))
                   <= max_requests (rate_limiter w)).
    { apply Hb; [|constructor|assumption].
      eapply sublist_StronglySorted; [apply limiter_readings_sublist|assumption]. }
    lia.
  - clear Hsorted Hempty Hmax. revert w.
    induction evs as [|ev evs IH]; intros w; [cbn; lia|].
    cbn [run fold_left service_call_times]. fold (run json_loads evs (step json_loads ev w)).
    rewrite IH, step_api_calls, length_app.
    destruct ev as [text now| |r now|client now]; cbn [length]; try lia.
    destruct (turn_calls_service client now w); cbn [length]; lia.
Qed.

End ServiceRate.

(** * The posts the re-queue button picks *)

Section ForceProcess.

#[local] Instance Zge_transitive : Transitive Z.ge.
Proof. intros x y z. lia. Qed.

#[local] Instance Zge_total : Total Z.ge.
Proof. intros x y. lia. Qed.

Lemma unprocessed_ids_In (m : gmap Z Post) (id : Z) :
  In id (List.map fst (List.filter (fun kp => negb (processed (snd kp)))
                                   (map_to_list m))) <->
  exists p, m !! id = Some p /\ processed p = false.
Proof.
  rewrite in_map_iff. split.
  - intros ([k p] & <- & Hin). apply filter_In in Hin as [Hin Hp].
    exists p. split.
    + apply elem_of_map_to_list, list_elem_of_In. exact Hin.
    + cbn in Hp. now destruct (processed p).
  - intros (p & Hp & Hproc). exists (id, p). split; [reflexivity|].
    apply filter_In. split.
    + apply list_elem_of_In, elem_of_map_to_list. exact Hp.
    + cbn. now rewrite Hproc.
Qed.

Lemma filter_keys_NoDup {A} (f : Z * A -> bool) (l : list (Z * A)) :
  NoDup (l.*1) -> NoDup (List.map fst (List.filter f l)).
Proof.
  induction l as [|[k a] l IH]; cbn [List.filter List.map]; intros Hnd.
  - constructor.
  - cbn in Hnd. apply NoDup_cons in Hnd as [Hk Hnd].
    destruct (f (k, a)); cbn [List.map fst]; [|auto].
    apply NoDup_cons. split; [|auto].
    intros Hin. apply Hk. apply list_elem_of_In in Hin.
    apply in_map_iff in Hin as ([k' a'] & Hk' & Hin). cbn in Hk'. subst k'.
    apply filter_In in Hin as [Hin _].
    apply list_elem_of_fmap. exists (k, a'). split; [reflexivity|].
    now apply list_elem_of_In.
Qed.

Lemma descending_strict (l : list Z) :
  StronglySorted Z.ge l -> NoDup l -> StronglySorted Z.gt l.
Proof.
  induction 1 as [|x l Hs IH Hall]; intros Hnd; [constructor|].
  apply NoDup_cons in Hnd as [Hx Hnd]. constructor; [auto|].
  rewrite List.Forall_forall in *. intros y Hy.
  specialize (Hall y Hy).
  assert (x <> y) by (intros ->; apply Hx; now apply list_elem_of_In).
  lia.
Qed.

(** The identifiers the re-queue button picks are those of unprocessed rows. *)
Lemma force_process_rows (d : Database) (id : Z) :
  In id (select_unprocessed_ids d) ->
  exists p, posts d !! id = Some p /\ processed p = false.
Proof.
  unfold select_unprocessed_ids. intros Hin.
  apply unprocessed_ids_In. apply list_elem_of_In.
  rewrite <- (merge_sort_Permutation Z.ge).
  apply list_elem_of_In in Hin.
  eapply elem_of_sublist; [exact Hin|apply sublist_take].
Qed.

(** The button adds to the back of the queue the identifiers of at most
    five rows, all of them unprocessed, in strictly descending order; and
    an unprocessed row it leaves out is older than each of the five it
    took.  It touches nothing else, and does not look at what the queue
    already holds. *)
Theorem force_process_newest_five (w : World) :
  let ids := select_unprocessed_ids (conn w) in
  force_process w = set_queue (emotion_queue w ++ ids)%list w /\
  (length ids <= 5)%nat /\
  StronglySorted Z.gt ids /\
  (forall id, In id ids ->
     exists p, posts (conn w) !! id = Some p /\ processed p = false) /\
  (forall id p, posts (conn w) !! id = Some p -> processed p = false ->
     ~ In id ids -> length ids = 5%nat /\ Forall (fun id' => id < id') ids).
Proof.
  cbv zeta. unfold select_unprocessed_ids.
  set (l := List.map fst (List.filter (fun kp => negb (processed (snd kp)))
                            (map_to_list (posts (conn w))))).
  set (sorted := merge_sort Z.ge l).
  assert (Hperm : sorted ≡ₚ l) by apply merge_sort_Permutation.
  assert (Hnd : NoDup sorted).
  { rewrite Hperm. apply filter_keys_NoDup, NoDup_fst_map_to_list. }
  assert (Hs : StronglySorted Z.gt sorted).
  { apply descending_strict; [apply StronglySorted_merge_sort; apply _|exact Hnd]. }
  rewrite <- (take_drop 5 sorted) in Hs.
  split; [reflexivity|]. split; [rewrite length_take; lia|].
  split; [eapply StronglySorted_app_1_l; exact Hs|]. split.
  - intros id Hin. apply force_process_rows. exact Hin.
  - intros id p Hp Hproc Hout.
    assert (Hin : id ∈ sorted).
    { rewrite Hperm. apply list_elem_of_In, unprocessed_ids_In. eauto. }
    rewrite <- (take_drop 5 sorted) in Hin.
    apply elem_of_app in Hin as [Hin|Hin];
      [exfalso; apply Hout; now apply list_elem_of_In|].
    split.
    + rewrite length_take.
      assert (length (drop 5 sorted) <> 0)%nat
        by (destruct (drop 5 sorted); [inversion Hin|discriminate]).
      rewrite length_drop in *. lia.
    + apply List.Forall_forall. intros id' Hin'. apply list_elem_of_In in Hin'.
      pose proof (StronglySorted_app_1_elem_of _ _ _ _ _ Hs Hin' Hin). lia.
Qed.

End ForceProcess.

(** * The queue and the table *)

Section QueueRows.

Variable json_loads : string -> result (gmap string pyval).

(** A turn of the worker puts nothing in the queue that was not in it. *)
Lemma loop_iteration_queue (client : option Client) (now : datetime) (w : World)
  (id : Z) :
  In id (emotion_queue (snd (loop_iteration json_loads client now w))) ->
  In id (emotion_queue w).
Proof.
  destruct (emotion_queue w) as [|post_id q] eqn:Hq.
  { unfold loop_iteration, try_except.
    rewrite (loop_try_idle json_loads client now w Hq). cbn. tauto. }
  destruct (debug_status w) as [log|] eqn:Hlog.
  2:{ unfold loop_iteration, try_except, loop_try, bind, queue_empty,
        queue_get, status_append.
      unfold loop_except, bind, status_append.
      repeat (first [rewrite Hq | rewrite Hlog]; cbn). tauto. }
  destruct (select_unprocessed_content post_id (conn w)) as [text|] eqn:Hsel.
  2:{ unfold loop_iteration, try_except.
      rewrite (loop_try_missing json_loads client now w post_id q log Hq Hsel Hlog).
      cbn. tauto. }
  destruct (analyze_returns json_loads text client now
              (in_flight post_id q text log w))
    as ([[emotions et] em] & w2 & Han).
  destruct (frame_in_flight json_loads text client now w post_id q text log)
    as (Hq2 & _ & log2 & Hlog2).
  rewrite Han in Hq2, Hlog2. cbn [snd] in Hq2, Hlog2.
  rewrite (loop_iteration_found json_loads client now w post_id q text log log2
             emotions et em w2 Hq Hsel Hlog Han Hlog2).
  destruct emotions as [d|];
    [destruct (update_params d) as [[[[h e] s] c]|exn]|];
    cbn [snd emotion_queue]; rewrite Hq2; cbn; try tauto.
  rewrite in_app_iff. cbn. tauto.
Qed.

(** No event removes a row. *)
Lemma step_keeps_rows (ev : event) (w : World) (id : Z) :
  db_wf (conn w) ->
  is_Some (posts (conn w) !! id) ->
  is_Some (posts (conn (step json_loads ev w)) !! id).
Proof.
  intros Hwf [p Hp].
  destruct (step_conn json_loads ev w)
    as [->|[(text & now & _ & ->)
           |(client & now & post_id & q & text & log & d & et & em & h & e & s & c
             & _ & _ & _ & _ & _ & _ & ->)]].
  - eauto.
  - cbn. destruct (decide (id = last_rowid (conn w) + 1)) as [->|Hne].
    + apply Hwf in Hp. lia.
    + rewrite lookup_insert_ne by congruence. eauto.
  - cbn. destruct (decide (id = post_id)) as [->|Hne].
    + rewrite lookup_alter_eq, Hp. cbn. eauto.
    + rewrite lookup_alter_ne by congruence. eauto.
Qed.

Lemma queue_has_rows_step (ev : event) (w : World) :
  db_wf (conn w) -> queue_has_rows w -> queue_has_rows (step json_loads ev w).
Proof.
  intros Hwf Hinv id Hin.
  destruct ev as [text now| |r now|client now].
  - cbn [step] in *. unfold submit_post in *.
    destruct text as [|ch text]; [auto|].
    cbn in Hin |- *. apply in_app_iff in Hin as [Hin|[<-|[]]].
    + destruct (decide (id = last_rowid (conn w) + 1)) as [->|Hne].
      * rewrite lookup_insert_eq. eauto.
      * rewrite lookup_insert_ne by congruence. auto.
    + rewrite lookup_insert_eq. eauto.
  - cbn in Hin |- *. apply in_app_iff in Hin as [Hin|Hin]; [auto|].
    destruct (force_process_rows (conn w) id Hin) as (p & Hp & _). eauto.
  - destruct r; cbn in Hin |- *; auto.
  - apply step_keeps_rows; [assumption|]. apply Hinv.
    cbn [step] in Hin. eapply loop_iteration_queue. exact Hin.
Qed.

(** From a state in which every queued identifier has a row, every run
    leads to such a state: the worker then finds the row of each
    identifier it takes off the queue, and passes one over as not found
    only when the row has been processed already. *)
Theorem queued_ids_have_rows (evs : list event) (w : World) :
  db_wf (conn w) ->
  queue_has_rows w ->
  forall id, In id (emotion_queue (run json_loads evs w)) ->
    exists p, posts (conn (run json_loads evs w)) !! id = Some p /\
      (select_unprocessed_content id (conn (run json_loads evs w)) = None ->
       processed p = true).
Proof.
  intros Hwf Hinv.
  assert (H : db_wf (conn (run json_loads evs w)) /\
              queue_has_rows (run json_loads evs w)).
  { revert w Hwf Hinv. induction evs as [|ev evs IH]; intros w Hwf Hinv; [auto|].
    cbn [run fold_left]. apply IH.
    - apply db_wf_step. exact Hwf.
    - apply queue_has_rows_step; assumption. }
  destruct H as [_ H]. intros id Hin. destruct (H id Hin) as [p Hp].
  exists p. split; [exact Hp|].
  unfold select_unprocessed_content. rewrite Hp.
  destruct (processed p); [reflexivity|discriminate].
Qed.

End QueueRows.

(** * What the scorer returns, and what reaches the table *)

Section Outcomes.

Variable json_loads : string -> result (gmap string pyval).

Lemma analyze_try_kinds (text : string) (c : Client) (w : World) :
  (exists e, fst (analyze_try json_loads text c w) = Raise e) \/
  (exists s, fst (analyze_try json_loads text c w) =
             Return (Some fallback_parse, Some "parse_error",
                     Some (msg_parse_error s))) \/
  (exists group d, json_loads group = Return d /\
                   fst (analyze_try json_loads text c w) = Return (Some d, None, None)).
Proof.
  unfold analyze_try, bind, status_append_if_present, call_generate_content,
    log_reply_if_present, bind, lift, slice_to, re_search_in, ret,
    status_append_if_present.
  destruct (debug_status w) as [log|] eqn:Hlog; cbn;
    destruct (generate_content c MODEL [EMOTION_PROMPT_format text]) as [r|e]; cbn;
    try (left; eexists; reflexivity).
  - destruct (response_text r) as [s|]; cbn; [|left; eexists; reflexivity].
    destruct (re_search s) as [group|]; cbn.
    + destruct (json_loads group) as [d|e] eqn:Hd; cbn.
      * right. right. exists group, d. split; [exact Hd|reflexivity].
      * left. eexists. reflexivity.
    + right. left. eexists. reflexivity.
  - rewrite Hlog. cbn.
    destruct (response_text r) as [s|]; cbn; [|left; eexists; reflexivity].
    destruct (re_search s) as [group|]; cbn.
    + destruct (json_loads group) as [d|e] eqn:Hd; cbn.
      * rewrite Hlog. cbn. right. right. exists group, d. split; [exact Hd|reflexivity].
      * left. eexists. reflexivity.
    + rewrite Hlog. cbn. right. left. eexists. reflexivity.
Qed.

(** The four shapes of the tuple the scorer returns: no score set, with
    the type [rate_limit]; the neutral fallback, with the type
    [api_error]; the fallback of an unreadable reply, with the type
    [parse_error]; or a score set the decoder gave, with neither type nor
    message. *)
Lemma analyze_kinds (text : string) (client : option Client) (now : datetime)
  (w : World) (emotions : option (gmap string pyval)) (et em : option string) :
  fst (analyze_emotion_with_ai json_loads text client now w) =
  Return (emotions, et, em) ->
  (emotions = None /\ et = Some "rate_limit" /\ em = Some msg_rate_limit) \/
  (emotions = Some fallback_neutral /\ et = Some "api_error" /\ is_Some em) \/
  (emotions = Some fallback_parse /\ et = Some "parse_error" /\ is_Some em) \/
  (exists group d, json_loads group = Return d /\
                   emotions = Some d /\ et = None /\ em = None).
Proof.
  destruct client as [c|].
  2:{ cbn. intros [= <- <- <-]. right. left. eauto. }
  destruct (fst (can_request now (rate_limiter w))) eqn:Hadm.
  - rewrite analyze_admitted by assumption. unfold try_except.
    pose proof (analyze_try_kinds text c
                  (set_rate_limiter (snd (can_request now (rate_limiter w))) w))
      as Hk.
    destruct (analyze_try json_loads text c _) as [[a|e] w1]; cbn [fst] in *.
    + intros [= ->].
      destruct Hk as [[e He]|[[s [= -> -> ->]]|(group & d & Hd & [= -> -> ->])]].
      * discriminate.
      * right. right. left. eauto.
      * right. right. right. eauto 6.
    + rewrite analyze_except_eq. intros [= <- <- <-]. right. left. eauto.
  - rewrite analyze_rate_limited by assumption. cbn. intros [= <- <- <-].
    left. auto.
Qed.

(** Whatever the client, the clock and the state, a tuple the scorer
    returns has one of four shapes: no score set and the type
    [rate_limit]; the neutral fallback and the type [api_error]; the
    fallback of an unreadable reply and the type [parse_error]; or a score
    set that the decoder returned, with neither type nor message.  So the
    score set is missing exactly for [rate_limit], and a type is given
    exactly when the scores are a fallback or missing. *)
Theorem scorer_outcome_shapes (text : string) (client : option Client)
  (now : datetime) (w : World) (emotions : option (gmap string pyval))
  (et em : option string) :
  fst (analyze_emotion_with_ai json_loads text client now w) =
  Return (emotions, et, em) ->
  (emotions = None /\ et = Some "rate_limit" /\ em = Some msg_rate_limit) \/
  (emotions = Some fallback_neutral /\ et = Some "api_error" /\ is_Some em) \/
  (emotions = Some fallback_parse /\ et = Some "parse_error" /\ is_Some em) \/
  (exists group d, json_loads group = Return d /\
                   emotions = Some d /\ et = None /\ em = None).
Proof. apply analyze_kinds. Qed.

Lemma error_columns_ok_step (ev : event) (w : World) :
  (forall id p, posts (conn w) !! id = Some p -> error_columns_ok p) ->
  forall id p, posts (conn (step json_loads ev w)) !! id = Some p ->
               error_columns_ok p.
Proof.
  intros Hinv id p.
  destruct (step_conn json_loads ev w)
    as [->|[(text & now & _ & ->)
           |(client & now & post_id & q & text & log & d & et & em & h & e & s & c
             & _ & _ & _ & _ & Han & Hup & ->)]].
  - apply Hinv.
  - cbn. destruct (decide (id = last_rowid (conn w) + 1)) as [->|Hne].
    + rewrite lookup_insert_eq. intros [= <-]. reflexivity.
    + rewrite lookup_insert_ne by congruence. apply Hinv.
  - cbn. destruct (decide (id = post_id)) as [->|Hne].
    2:{ rewrite lookup_alter_ne by congruence. apply Hinv. }
    rewrite lookup_alter_eq.
    destruct (posts (conn w) !! post_id) as [p0|]; [|discriminate].
    cbn. intros [= <-]. unfold error_columns_ok. cbn.
    apply analyze_kinds in Han
      as [(Hd & _)|[(Hd & -> & Hem)|[(Hd & -> & Hem)|(group & d' & _ & _ & -> & ->)]]].
    + discriminate.
    + injection Hd as ->. rewrite update_params_neutral in Hup.
      injection Hup as <- <- <- <-. split; [reflexivity|]. split; [exact Hem|].
      left. repeat split.
    + injection Hd as ->. rewrite update_params_parse in Hup.
      injection Hup as <- <- <- <-. split; [reflexivity|]. split; [exact Hem|].
      right. repeat split.
    + reflexivity.
Qed.

Lemma error_columns_ok_run (evs : list event) :
  forall w,
    (forall id p, posts (conn w) !! id = Some p -> error_columns_ok p) ->
    forall id p, posts (conn (run json_loads evs w)) !! id = Some p ->
                 error_columns_ok p.
Proof.
  induction evs as [|ev evs IH]; intros w Hinv; [exact Hinv|].
  cbn [run fold_left]. apply IH. apply error_columns_ok_step. exact Hinv.
Qed.

(** Over every run from a table whose rows are so, a row that carries an
    error type has been processed, carries [api_error] or [parse_error]
    and a message, and holds the fallback scores of its type: 5, 5, 5, 5
    or 6, 7, 5, 3.  The type [rate_limit] never reaches the table. *)
Theorem error_rows_hold_fallback (evs : list event) (w : World) (id : Z) (p : Post)
  (et : string) :
  (forall id p, posts (conn w) !! id = Some p -> error_columns_ok p) ->
  posts (conn (run json_loads evs w)) !! id = Some p ->
  error_type p = Some et ->
  processed p = true /\ is_Some (error_message p) /\ et <> "rate_limit" /\
  ((et = "api_error" /\
    (happiness p, excitement p, satisfaction p, concern p) =
    (SqlReal 5, SqlReal 5, SqlReal 5, SqlReal 5)) \/
   (et = "parse_error" /\
    (happiness p, excitement p, satisfaction p, concern p) =
    (SqlReal 6, SqlReal 7, SqlReal 5, SqlReal 3))).
Proof.
  intros Hinv Hp Het.
  pose proof (error_columns_ok_run evs w Hinv id p Hp) as Hok.
  unfold error_columns_ok in Hok. rewrite Het in Hok.
  destruct Hok as (Hproc & Hem & Hkind).
  split; [exact Hproc|]. split; [exact Hem|].
  destruct Hkind as [(-> & -> & -> & -> & ->)|(-> & -> & -> & -> & ->)].
  - split; [discriminate|]. left. split; reflexivity.
  - split; [discriminate|]. right. split; reflexivity.
Qed.

End Outcomes.

(** * The statistics of the sidebar *)

Section Statistics.

Variable json_loads : string -> result (gmap string pyval).

Lemma filter_split_length {A} (f : A -> bool) (l : list A) :
  length l = (length (List.filter f l) +
              length (List.filter (fun x => negb (f x)) l))%nat.
Proof.
  induction l as [|x l IH]; [reflexivity|].
  cbn [List.filter]. destruct (f x); cbn [negb length]; lia.
Qed.

Lemma filter_true_length {A} (l : list A) :
  length (List.filter (fun _ => true) l) = length l.
Proof. induction l as [|x l IH]; cbn; [reflexivity|now rewrite IH]. Qed.

Lemma filter_implies_length {A} (f g : A -> bool) (l : list A) :
  (forall x, In x l -> f x = true -> g x = true) ->
  (length (List.filter f l) <= length (List.filter g l))%nat.
Proof.
  induction l as [|x l IH]; intros H; [cbn; lia|].
  assert (Hl : (length (List.filter f l) <= length (List.filter g l))%nat)
    by (apply IH; intros y Hy; apply H; now right).
  pose proof (H x (or_introl eq_refl)) as Hx.
  cbn [List.filter].
  destruct (f x), (g x); cbn [length]; first [lia | discriminate (Hx eq_refl)].
Qed.

Lemma total_posts_size (d : Database) :
  total_posts d = Z.of_nat (size (posts d)).
Proof.
  unfold total_posts, count_posts.
  now rewrite filter_true_length, length_map_to_list.
Qed.

Lemma total_posts_step (ev : event) (w : World) :
  db_wf (conn w) ->
  total_posts (conn (step json_loads ev w)) =
  total_posts (conn w) + submissions [ev].
Proof.
  intros Hwf. rewrite !total_posts_size.
  destruct (step_conn json_loads ev w)
    as [Heq|[(text & now & -> & Hins)
           |(client & now & post_id & q & text & log & d & et & em & h & e & s & c
             & -> & _ & _ & _ & _ & _ & ->)]].
  - rewrite Heq.
    destruct ev as [[|ch text] now| |r now|client now];
      try (unfold submissions; cbn [List.filter length]; lia).
    exfalso. apply (f_equal last_rowid) in Heq. cbn in Heq. lia.
  - destruct text as [|ch text]; [unfold submissions; cbn; lia|].
    unfold submissions. cbn.
    rewrite map_size_insert_None; [lia|].
    destruct (posts (conn w) !! (last_rowid (conn w) + 1)) as [p|] eqn:Hp;
      [apply Hwf in Hp; lia|reflexivity].
  - unfold submissions. cbn. rewrite <- !size_dom, dom_alter_L. lia.
Qed.

Lemma submissions_cons (ev : event) (evs : list event) :
  submissions (ev :: evs) = submissions [ev] + submissions evs.
Proof.
  unfold submissions. cbn [List.filter].
  destruct ev as [[|ch text] now| |r now|client now]; cbn [length]; lia.
Qed.

(** The counts of the sidebar over every run from a table whose error
    columns are in order: the total is the processed and the pending
    together, the rows with an error are among the processed, the
    processed never exceed [max(total_posts, 1)], the divisor of the
    progress bar; and the total has grown by one for each submission with
    a content, and by nothing else. *)
Theorem sidebar_statistics (evs : list event) (w : World) :
  db_wf (conn w) ->
  (forall id p, posts (conn w) !! id = Some p -> error_columns_ok p) ->
  let d := conn (run json_loads evs w) in
  total_posts d = processed_posts d + pending_posts d /\
  0 <= error_posts d <= processed_posts d /\
  processed_posts d <= Z.max (total_posts d) 1 /\
  total_posts d = total_posts (conn w) + submissions evs.
Proof.
  intros Hwf Hinv d.
  assert (Hsum : total_posts d = processed_posts d + pending_posts d).
  { unfold total_posts, processed_posts, pending_posts, count_posts.
    rewrite filter_true_length.
    rewrite (filter_split_length (fun kp : Z * Post => processed (snd kp))
               (map_to_list (posts d))). lia. }
  split; [exact Hsum|]. split; [|split].
  - unfold error_posts, processed_posts, count_posts. split; [lia|].
    apply inj_le, filter_implies_length. intros [id p] Hin Herr. cbn in *.
    apply list_elem_of_In, elem_of_map_to_list in Hin.
    pose proof (error_columns_ok_run json_loads evs w Hinv id p Hin) as Hok.
    unfold error_columns_ok in Hok.
    destruct (error_type p); [tauto|discriminate].
  - unfold pending_posts, count_posts in Hsum. lia.
  - subst d. clear Hinv Hsum. revert w Hwf.
    induction evs as [|ev evs IH]; intros w Hwf;
      [unfold submissions, run; cbn [fold_left List.filter length]; lia|].
    cbn [run fold_left]. fold (run json_loads evs (step json_loads ev w)).
    rewrite IH by (apply db_wf_step; exact Hwf).
    rewrite total_posts_step by exact Hwf.
    rewrite (submissions_cons ev evs). lia.
Qed.

End Statistics.

(** * The length of the log *)

Section LogLength.

Variable json_loads : string -> result (gmap string pyval).





End LogLength.


(** * The participation rate *)

Section ParticipationRate.

Lemma rate_check_small :
  forallb rate_check (List.map Z.of_nat (seq 0 201)) = true.
Proof. vm_compute. reflexivity. Qed.

(** For every count the rate is a number between 0 and 100, and it never
    decreases as the count grows; it is the float 100.0 at two hundred
    posts and the int 100 above. *)
Theorem participation_rate_bounds (n : Z) :
  0 <= n ->
  rate_in_range (participation_rate n) = true /\
  rate_leb (participation_rate n) (participation_rate (n + 1)) = true /\
  participation_rate 200 = PyFloat 100 /\
  (200 < n -> participation_rate n = PyInt 100).
Proof.
  intros Hn.
  assert (Hbig : 200 < n -> participation_rate n = PyInt 100).
  { intros H. unfold participation_rate.
    destruct (Z.leb_spec n 200); [lia|reflexivity]. }
  assert (Hcheck : rate_check n = true).
  { destruct (Z.le_gt_cases n 200) as [Hle|Hgt].
    - pose proof rate_check_small as Hall.
      rewrite forallb_forall in Hall. apply Hall.
      apply in_map_iff. exists (Z.to_nat n). split; [lia|].
      apply in_seq. lia.
    - unfold rate_check. rewrite Hbig by lia.
      unfold participation_rate at 1.
      destruct (Z.leb_spec (n + 1) 200); [lia|reflexivity]. }
  unfold rate_check in Hcheck. apply andb_prop in Hcheck as [H1 H2].
  split; [exact H1|]. split; [exact H2|]. split; [|exact Hbig].
  vm_compute. reflexivity.
Qed.

End ParticipationRate.

(** * The further properties at work *)

Section MoreExamples.

Lemma initial_world_wf : db_wf (conn initial_world).
Proof. intros id p Hp. cbn in Hp. rewrite lookup_empty in Hp. discriminate. Qed.

Lemma initial_world_error_columns :
  forall id p, posts (conn initial_world) !! id = Some p -> error_columns_ok p.
Proof. intros id p Hp. cbn in Hp. rewrite lookup_empty in Hp. discriminate. Qed.

(** A post is submitted, its page looks at the limiter of its own run, and
    the worker has the post scored: one call of the service, within the
    bound. *)
Lemma service_rate_bound_witness :
  let c := client_replying
             (json_text "{'happiness': 8, 'excitement': 7, 'satisfaction': 9, 'concern': 2}") in
  let evs := [Submit a_post 0; Preview LaterRun (seconds 1);
              WorkerTurn (Some c) (seconds 2)] in
  service_call_times json_loads_flat evs initial_world = [seconds 2] /\
  Z.of_nat (length (List.filter
                      (in_windowb (time_window (rate_limiter initial_world)) (seconds 10))
                      (service_call_times json_loads_flat evs initial_world)))
  <= max_requests (rate_limiter initial_world) /\
  api_calls (effects (run json_loads_flat evs initial_world)) =
  (api_calls (effects initial_world) +
   length (service_call_times json_loads_flat evs initial_world))%nat.
Proof.
  cbv zeta. split; [vm_compute; reflexivity|].
  apply (service_rate_bound json_loads_flat).
  - cbn [omap list_omap event_reading]. unfold seconds, us_per_second.
    repeat (apply SSorted_cons; [|repeat (constructor; [lia|]); constructor]).
    apply SSorted_nil.
  - reflexivity.
  - cbn. lia.
Defined.

(** A post is submitted and the button pressed: its identifier is in the
    queue twice, and the row is there. *)
Lemma queued_ids_have_rows_witness :
  let evs := [Submit a_post 0; ForceProcess] in
  emotion_queue (run json_loads_flat evs initial_world) = [1; 1] /\
  exists p,
    posts (conn (run json_loads_flat evs initial_world)) !! 1 = Some p /\
    (select_unprocessed_content 1 (conn (run json_loads_flat evs initial_world)) = None ->
     processed p = true).
Proof.
  cbv zeta.
  assert (Hq : emotion_queue (run json_loads_flat [Submit a_post 0; ForceProcess]
                                initial_world) = [1; 1])
    by (vm_compute; reflexivity).
  split; [exact Hq|].
  apply (queued_ids_have_rows json_loads_flat [Submit a_post 0; ForceProcess]
           initial_world initial_world_wf).
  - intros id [].
  - rewrite Hq. left. reflexivity.
Defined.

(** A turn of the worker without a client: the row it stores carries
    [api_error] and the neutral scores. *)
Lemma error_rows_hold_fallback_witness :
  let evs := [Submit a_post 0; WorkerTurn None (seconds 1)] in
  let p := analysed (new_post a_post 0)
             (SqlReal 5) (SqlReal 5) (SqlReal 5) (SqlReal 5)
             (Some "api_error") (Some msg_no_client) in
  posts (conn (run json_loads_flat evs initial_world)) !! 1 = Some p /\
  processed p = true /\ is_Some (error_message p) /\ "api_error" <> "rate_limit" /\
  (("api_error" = "api_error" /\
    (happiness p, excitement p, satisfaction p, concern p) =
    (SqlReal 5, SqlReal 5, SqlReal 5, SqlReal 5)) \/
   ("api_error" = "parse_error" /\
    (happiness p, excitement p, satisfaction p, concern p) =
    (SqlReal 6, SqlReal 7, SqlReal 5, SqlReal 3))).
Proof.
  cbv zeta.
  assert (Hp : posts (conn (run json_loads_flat
                              [Submit a_post 0; WorkerTurn None (seconds 1)]
                              initial_world)) !! 1 =
               Some (analysed (new_post a_post 0)
                       (SqlReal 5) (SqlReal 5) (SqlReal 5) (SqlReal 5)
                       (Some "api_error") (Some msg_no_client)))
    by (vm_compute; reflexivity).
  split; [exact Hp|].
  exact (error_rows_hold_fallback json_loads_flat
           [Submit a_post 0; WorkerTurn None (seconds 1)] initial_world 1 _
           "api_error" initial_world_error_columns Hp eq_refl).
Defined.

(** The scorer without a client returns the second of the four shapes. *)
Lemma scorer_outcome_shapes_witness :
  let emotions := Some fallback_neutral in
  let et := Some "api_error" in
  let em := Some msg_no_client in
  (emotions = None /\ et = Some "rate_limit" /\ em = Some msg_rate_limit) \/
  (emotions = Some fallback_neutral /\ et = Some "api_error" /\ is_Some em) \/
  (emotions = Some fallback_parse /\ et = Some "parse_error" /\ is_Some em) \/
  (exists group d, json_loads_flat group = Return d /\
                   emotions = Some d /\ et = None /\ em = None).
Proof.
  cbv zeta.
  exact (scorer_outcome_shapes json_loads_flat a_post None 0 initial_world
           (Some fallback_neutral) (Some "api_error") (Some msg_no_client) eq_refl).
Defined.

(** Two posts, one scored without a client: two in all, one processed
    with an error, one pending. *)
Lemma sidebar_statistics_witness :
  let evs := [Submit a_post 0; Submit "" 1; Submit "もう一つ" 2;
              WorkerTurn None (seconds 3)] in
  let d := conn (run json_loads_flat evs initial_world) in
  (total_posts d = 2 /\ processed_posts d = 1 /\ pending_posts d = 1 /\
   error_posts d = 1) /\
  total_posts d = processed_posts d + pending_posts d /\
  0 <= error_posts d <= processed_posts d /\
  processed_posts d <= Z.max (total_posts d) 1 /\
  total_posts d = total_posts (conn initial_world) + submissions evs.
Proof.
  cbv zeta. split; [vm_compute; auto|].
  exact (sidebar_statistics json_loads_flat
           [Submit a_post 0; Submit "" 1; Submit "もう一つ" 2;
            WorkerTurn None (seconds 3)]
           initial_world initial_world_wf initial_world_error_columns).
Defined.



(** Seven posts: the rate is the float next above 3.5, not 3.5. *)
Lemma participation_rate_bounds_witness :
  participation_rate 7 = PyFloat 0x1.c000000000001p+1 /\
  rate_in_range (participation_rate 7) = true /\
  rate_leb (participation_rate 7) (participation_rate (7 + 1)) = true /\
  participation_rate 200 = PyFloat 100 /\
  (200 < 7 -> participation_rate 7 = PyInt 100).
Proof.
  split; [vm_compute; reflexivity|].
  apply (participation_rate_bounds 7). lia.
Defined.

End MoreExamples.
